(** * shawty: page preparation and capture pipeline

    A shallow embedding of the screenshot service (PageManager,
    ScreenshotService and the HTTP handlers) and the properties of its
    overlay neutralizer, widget suppressor, stability monitor, scroller,
    orchestrator and HTTP surface. *)

From stdpp Require Import base list strings pretty.
From Stdlib Require Import ZArith Lia Bool Ascii.
From Stdlib.Strings Require Import Byte.

Local Open Scope string_scope.
Local Open Scope list_scope.

(** ** JavaScript string helpers *)

Module Js.

(** [c.toLowerCase()] on one ASCII code unit. *)
Definition lowerAscii (c : ascii) : ascii :=
  let n := nat_of_ascii c in
  if (65 <=? n)%nat && (n <=? 90)%nat then ascii_of_nat (n + 32) else c.

(** [s.toLowerCase()], for the ASCII strings URLs and tag names are. *)
Fixpoint toLowerCase (s : string) : string :=
  match s with
  | EmptyString => EmptyString
  | String c s' => String (lowerAscii c) (toLowerCase s')
  end.

(** [s.startsWith(p)]. *)
Fixpoint startsWith (s p : string) {struct p} : bool :=
  match p with
  | EmptyString => true
  | String c p' =>
      match s with
      | EmptyString => false
      | String d s' => Ascii.eqb c d && startsWith s' p'
      end
  end.

(** [s.includes(p)]: [p] occurs somewhere in [s]. *)
Fixpoint includes (s p : string) : bool :=
  startsWith s p ||
  match s with
  | EmptyString => false
  | String _ s' => includes s' p
  end.

(** JavaScript truthiness of an optional string: [undefined] and the empty
    string are falsy. *)
Definition truthy (o : option string) : bool :=
  match o with
  | Some s => negb (String.eqb s "")
  | None => false
  end.

(** A Node [Buffer]. *)
Definition Buffer : Type := list byte.

Definition base64Alphabet : string :=
  "ABCDEFGHIJKLMNOPQRSTUVWXYZabcdefghijklmnopqrstuvwxyz0123456789+/".

Definition base64Digit (n : N) : ascii :=
  match String.get (N.to_nat n) base64Alphabet with
  | Some c => c
  | None => "="%char
  end.

(** [buffer.toString("base64")] *)
Fixpoint toBase64 (bs : list byte) : string :=
  match bs with
  | [] => EmptyString
  | [a] =>
      let n := (Byte.to_N a * 16)%N in
      String (base64Digit (n / 64)) (String (base64Digit (n mod 64)) "==")
  | [a; b] =>
      let n := ((Byte.to_N a * 256 + Byte.to_N b) * 4)%N in
      String (base64Digit (n / 4096))
        (String (base64Digit (n / 64 mod 64))
           (String (base64Digit (n mod 64)) "="))
  | a :: b :: c :: rest =>
      let n := (Byte.to_N a * 65536 + Byte.to_N b * 256 + Byte.to_N c)%N in
      String (base64Digit (n / 262144))
        (String (base64Digit (n / 4096 mod 64))
           (String (base64Digit (n / 64 mod 64))
              (String (base64Digit (n mod 64)) (toBase64 rest))))
  end.

End Js.

(** ** Overlay neutralizer: handleStickyElements / restoreStickyElements *)

Module Neutralizer.

(** The part of a DOM element the two in-page scripts read or write. *)
Record Element := mkElement {
  tagName : string;           (* element.tagName *)
  roleAttr : option string;   (* element.getAttribute("role") *)
  cssText : string            (* element.style.cssText *)
}.

(** [element.style.cssText = s]. *)
Definition set_cssText (s : string) (e : Element) : Element :=
  mkElement (tagName e) (roleAttr e) s.

(** interface StickyStyle: an element reference (its index in the arena of
    element objects) and the inline style text saved for it. *)
Record StickyStyle := mkStickyStyle {
  element : nat;
  style : string
}.

(** The page-side state: the element objects and the global slot
    [window.__originalStickyStyles] ([None] is [undefined]). *)
Record Page := mkPage {
  dom : list Element;
  originalStickyStyles : option (list StickyStyle)
}.

(** [new Set(xs)] keeps the first occurrence of every member, in insertion
    order. *)
Fixpoint newSet_from (seen xs : list nat) : list nat :=
  match xs with
  | [] => []
  | x :: xs' =>
      if bool_decide (x ∈ seen) then newSet_from seen xs'
      else x :: newSet_from (x :: seen) xs'
  end.

Definition newSet (xs : list nat) : list nat := newSet_from [] xs.

Section Browser.

(** What the browser supplies: [window.getComputedStyle(e).position] for the
    element at an index of the current DOM, and the effect of
    [style.setProperty(name, value, priority)] on the inline style text. *)
Variable computedPosition : list Element -> nat -> string.
Variable setProperty : string -> string -> string -> string -> string.

Definition stickySelectors : list string :=
  ["position: fixed"; "position:fixed"; "position: sticky"; "position:sticky"].

(** [[style*="..."]] for one of the four selectors of the joined list. *)
Definition matchesStickySelectors (e : Element) : bool :=
  existsb (Js.includes (cssText e)) stickySelectors.

Definition isFixedOrSticky (d : list Element) (i : nat) : bool :=
  String.eqb (computedPosition d i) "fixed" ||
  String.eqb (computedPosition d i) "sticky".

(** [document.querySelectorAll]: the matching elements in document order. *)
Definition querySelectorAll (sel : nat -> bool) (d : list Element) : list nat :=
  List.filter sel (seq 0 (length d)).

Definition stickyElements (d : list Element) : list nat :=
  newSet
    (querySelectorAll
       (fun i => match d !! i with
                 | Some e => matchesStickySelectors e
                 | None => false
                 end) d
     ++ querySelectorAll (isFixedOrSticky d) d).

Definition isLandmark (e : Element) : bool :=
  String.eqb (Js.toLowerCase (tagName e)) "header" ||
  String.eqb (Js.toLowerCase (tagName e)) "nav" ||
  match roleAttr e with
  | Some r => String.eqb r "navigation"
  | None => false
  end.

(** One turn of [for (const element of stickyElements)]. *)
Definition modifyStep (st : list Element * list StickyStyle) (i : nat)
  : list Element * list StickyStyle :=
  let '(d, originalStyles) := st in
  match d !! i with
  | None => st
  | Some e =>
      if isFixedOrSticky d i then
        let pushed := originalStyles ++ [mkStickyStyle i (cssText e)] in
        let css1 := setProperty (cssText e) "position" "static" "important" in
        let css2 :=
          if isLandmark e then
            setProperty (setProperty css1 "top" "0" "important")
                        "z-index" "auto" "important"
          else css1 in
        (<[i := set_cssText css2 e]> d, pushed)
      else st
  end.

Definition modifyStickyElements (d : list Element)
  : list Element * list StickyStyle :=
  fold_left modifyStep (stickyElements d) (d, []).

Definition handleStickyElements (p : Page) : Page :=
  let '(d, originalStyles) := modifyStickyElements (dom p) in
  mkPage d (Some originalStyles).

End Browser.

(** The body of [for (const { element, style } of originalStyles)]. *)
Definition writeBack (d : list Element) (r : StickyStyle) : list Element :=
  alter (set_cssText (style r)) (element r) d.

Definition restoreStickyElements (p : Page) : Page :=
  match originalStickyStyles p with
  | Some originalStyles =>
      mkPage (fold_left writeBack originalStyles (dom p))
             (originalStickyStyles p)
  | None => p
  end.

(** The style text the write-backs of [rs] leave on element [i] whose text
    was [c] before: the last record for [i] wins. *)
Definition finalCss (rs : list StickyStyle) (i : nat) (c : string) : string :=
  fold_left (fun c r => if Nat.eqb (element r) i then style r else c) rs c.

(** The loop invariant of [modifyStickyElements]: every recorded element is
    recorded once, with the inline style it had on entry, and only the
    inline style of recorded elements has been touched. *)
Definition recorded (d0 : list Element) (st : list Element * list StickyStyle)
  : Prop :=
  NoDup (element <$> st.2) ∧
  (∀ r, r ∈ st.2 → ∃ e0 c, d0 !! element r = Some e0 ∧ style r = cssText e0 ∧
                          st.1 !! element r = Some (set_cssText c e0)) ∧
  (∀ i, i ∉ element <$> st.2 → st.1 !! i = d0 !! i).

(** A toy browser for running the scripts: the computed position is the
    word after "position: " at the head of the inline style, and
    [setProperty] prepends a declaration. *)
Definition demoComputed (d : list Element) (i : nat) : string :=
  match d !! i with
  | Some e =>
      if Js.startsWith (cssText e) "position: fixed" then "fixed"
      else if Js.startsWith (cssText e) "position: sticky" then "sticky"
      else "static"
  | None => ""
  end.

Definition demoSetProperty (css name value priority : string) : string :=
  name +:+ ": " +:+ value +:+ " !" +:+ priority +:+ "; " +:+ css.

Definition demoPage : Page :=
  mkPage [ mkElement "HEADER" None "position: fixed; top: 10px;";
           mkElement "DIV" None "color: red;";
           mkElement "DIV" (Some "navigation") "position: sticky;" ]
         None.

End Neutralizer.

(** ** Widget suppressor: the request handler of blockChatWidgets *)

Module Suppressor.

Definition blockPatterns : list string :=
  [ "crisp.chat"; "intercom.io"; "messenger.com";
    "facebook.com/*/customer_chat"; "drift.com"; "tawk.to"; "user.com";
    "zoho.com/salesiq"; "hubspot.com/messaging"; "livechatinc.com";
    "zopim.com"; "freshchat.com"; "olark.com"; "zendesk.com/embeddable";
    "gorgias.chat"; "smooch.io"; "purechat.com";
    "js.hsforms.net"; "js.usemessages.com"; "js.hs-scripts.com";
    "js.hscollectedforms.net"; "js.hsadspixel.net"; "js.hs-analytics.net";
    "js.hs-banner.com"; "*.hubspot.com/conversations-visitor";
    "meetings.hubspot.com"; "api.hubspot.com/conversations";
    "*.hubspot.net" ].

Definition backslash : ascii := ascii_of_nat 92.

(** [pattern.replace(/\./g, "\\.")] *)
Fixpoint escapeDots (s : string) : string :=
  match s with
  | EmptyString => EmptyString
  | String c s' =>
      if Ascii.eqb c "." then String backslash (String "." (escapeDots s'))
      else String c (escapeDots s')
  end.

(** [.replace(/\*/g, ".*")] *)
Fixpoint expandStars (s : string) : string :=
  match s with
  | EmptyString => EmptyString
  | String c s' =>
      if Ascii.eqb c "*" then String "." (String "*" (expandStars s'))
      else String c (expandStars s')
  end.

Definition regexPattern (pattern : string) : string :=
  expandStars (escapeDots pattern).

(** The regular expressions the two replacements can produce: a sequence of
    literal characters and [.*]. *)
Inductive Atom :=
| Lit (c : ascii)
| AnyStar.

Definition isSyntaxCharacter (c : ascii) : bool :=
  existsb (Ascii.eqb c)
    [ "^"; "$"; backslash; "."; "*"; "+"; "?"; "("; ")"; "["; "]"; "{"; "}";
      "|" ]%char.

(** [new RegExp(source)] on that fragment: an escaped dot, [.*], or a
    character without a meaning in the pattern syntax; [None] outside it. *)
Fixpoint compile (source : string) : option (list Atom) :=
  match source with
  | EmptyString => Some []
  | String c rest =>
      if Ascii.eqb c backslash then
        match rest with
        | String d rest' =>
            if Ascii.eqb d "." then cons (Lit ".") <$> compile rest' else None
        | EmptyString => None
        end
      else if Ascii.eqb c "." then
        match rest with
        | String d rest' =>
            if Ascii.eqb d "*" then cons AnyStar <$> compile rest' else None
        | EmptyString => None
        end
      else if isSyntaxCharacter c then None
      else cons (Lit c) <$> compile rest
  end.

(** [.] matches any character except a line terminator. *)
Definition isLineTerminator (c : ascii) : bool :=
  Ascii.eqb c (ascii_of_nat 10) || Ascii.eqb c (ascii_of_nat 13).

(** The atoms match a prefix of the string. *)
Fixpoint matchHere (re : list Atom) : string → bool :=
  match re with
  | [] => fun _ => true
  | Lit c :: re' =>
      fun s =>
        match s with
        | String d s' => Ascii.eqb c d && matchHere re' s'
        | EmptyString => false
        end
  | AnyStar :: re' =>
      fix star (s : string) : bool :=
        matchHere re' s ||
        match s with
        | String d s' => negb (isLineTerminator d) && star s'
        | EmptyString => false
        end
  end.

(** [regexp.test(s)] without anchors: a match may start anywhere. *)
Fixpoint test (re : list Atom) (s : string) : bool :=
  matchHere re s ||
  match s with
  | String _ s' => test re s'
  | EmptyString => false
  end.

(** The callback of [blockPatterns.some]. *)
Definition patternMatches (url pattern : string) : bool :=
  match compile (regexPattern pattern) with
  | Some re => test re url
  | None => false
  end.

Definition isBlocked (url : string) : bool :=
  existsb (patternMatches url) blockPatterns.

(** How an intercepted request was resolved, in the order of the resolving
    calls that took effect; the request is pending while the list is empty. *)
Inductive Resolution := Aborted | Continued.

Record HTTPRequest := mkRequest {
  requestUrl : string;
  resolutions : list Resolution
}.

Definition alreadyHandled : string := "Request is already handled!".

(** [request.abort()] and [request.continue()]: the call rejects with the
    message the handler looks for on a request that is no longer pending,
    rejects with [msg] when the browser fails it for another reason
    ([fault = Some msg], the case the handler warns about), and otherwise
    resolves the request. *)
Definition resolveWith (how : Resolution) (fault : option string)
    (r : HTTPRequest) : HTTPRequest + string :=
  match resolutions r with
  | [] =>
      match fault with
      | Some msg => inr msg
      | None => inl (mkRequest (requestUrl r) (resolutions r ++ [how]))
      end
  | _ :: _ => inr alreadyHandled
  end.

Definition abort := resolveWith Aborted.
Definition continue := resolveWith Continued.

(** Whether the browser fails the first resolving call of the handler, and
    the one in its catch block. *)
Record Faults := mkFaults {
  firstCall : option string;
  fallbackCall : option string
}.

(** [page.on("request", async (request) => ...)]: the request afterwards and
    the lines written with [console.warn]. *)
Definition onRequest (f : Faults) (request : HTTPRequest)
  : HTTPRequest * list string :=
  let url := Js.toLowerCase (requestUrl request) in
  match (if isBlocked url then abort (firstCall f) request
         else continue (firstCall f) request) with
  | inl request' => (request', [])
  | inr error =>
      let warned :=
        if negb (Js.includes error "Request is already handled")
        then ["Request interception error: " +:+ error] else [] in
      match continue (fallbackCall f) request with
      | inl request' => (request', warned)
      | inr _ => (request, warned)
      end
  end.

(** A pattern with no [*] and no other pattern syntax than the dot, and the
    literal atoms it stands for. *)
Definition isPlain (c : ascii) : bool :=
  Ascii.eqb c "." || negb (isSyntaxCharacter c).

Fixpoint plainPattern (p : string) : bool :=
  match p with
  | EmptyString => true
  | String c p' => isPlain c && plainPattern p'
  end.

Fixpoint literals (p : string) : list Atom :=
  match p with
  | EmptyString => []
  | String c p' => Lit c :: literals p'
  end.

(** The pattern gives an expression that [compile] covers: apart from its
    dots and wildcards it has no character with a meaning in the pattern
    syntax. Outside of that [new RegExp] may throw or build an expression
    with other operators, and [patternMatches] says nothing about it. *)
Definition inFragment (pattern : string) : bool :=
  match compile (regexPattern pattern) with
  | Some _ => true
  | None => false
  end.

(** No character of the string is a line terminator. *)
Fixpoint noLineTerminator (s : string) : bool :=
  match s with
  | EmptyString => true
  | String c s' => negb (isLineTerminator c) && noLineTerminator s'
  end.

Definition intercomRequest : HTTPRequest :=
  mkRequest "https://widget.Intercom.io/widget/abc123" [].

Definition exampleRequest : HTTPRequest :=
  mkRequest "https://example.com/app.js" [].

(** A request to a blocked host that another request handler of the page
    has continued already. *)
Definition racedRequest : HTTPRequest :=
  mkRequest "https://widget.intercom.io/widget/abc123" [Continued].

Definition sessionClosed : string :=
  "Protocol error (Fetch.failRequest): Session closed.".

End Suppressor.

(** ** Stability monitor and intelligent scroller *)

Module Scrolling.

Local Open Scope Z_scope.

Record ScrollMetrics := mkScrollMetrics {
  viewportHeight : Z;
  documentHeight : Z;
  scrollTop : Z
}.

Record LazyLoadMetrics := mkLazyLoadMetrics {
  imageCount : Z;
  iframeCount : Z;
  pendingNetworkRequests : Z
}.

(** The page and the timers as the host program meets them. The awaits of a
    run are numbered; the n-th one takes [latency n] milliseconds on top of
    its own delay, a [page.evaluate] at position n rejects when [rejects n]
    holds a message, and the page shows the geometry and the counts given for
    n. Heights and offsets are whole pixels, times whole milliseconds. *)
Record Env := mkEnv {
  latency : nat → Z;
  rejects : nat → option string;
  innerHeight : nat → Z;
  fullHeight : nat → Z;
  lazyLoad : nat → LazyLoadMetrics
}.

(** What the host did to the page and saw of it, for the record. *)
Inductive Event :=
| SawScroll (m : ScrollMetrics)
| SawLazyLoad (m : LazyLoadMetrics)
| ScrolledBy (step : Z)
| ScrolledTo (y : Z)
| Warned (msg : string).

(** [now] is [Date.now()], [awaits] the number of awaits so far, [scrollY]
    the page's scroll offset, [history] the events with their times, the
    latest first. *)
Record World := mkWorld {
  now : Z;
  awaits : nat;
  scrollY : Z;
  history : list (Z * Event)
}.

Inductive Outcome (A : Type) :=
| Returned (a : A) (w : World)
| Threw (e : string) (w : World)
| OutOfFuel.
Arguments Returned {A} a w.
Arguments Threw {A} e w.
Arguments OutOfFuel {A}.

(** An async function over the page: it returns, rejects, or is cut off by
    the iteration budget of the model. *)
Definition Async (A : Type) : Type := World → Outcome A.

Definition ret {A} (a : A) : Async A := fun w => Returned a w.

Definition bind {A B} (m : Async A) (k : A → Async B) : Async B :=
  fun w =>
    match m w with
    | Returned a w' => k a w'
    | Threw e w' => Threw e w'
    | OutOfFuel => OutOfFuel
    end.

Definition outOfFuel {A} : Async A := fun _ => OutOfFuel.

Declare Scope async_scope.
Delimit Scope async_scope with async.
Notation "x ← y ; z" := (bind y (fun x => z))
  (at level 20, y at level 100, z at level 200, only parsing) : async_scope.
Notation "x ;; z" := (bind x (fun _ => z))
  (at level 100, z at level 200, only parsing, right associativity)
  : async_scope.

(** [wp m Q X w]: started in [w], [m] ends within the budget, either
    returning a value and a world that satisfy [Q] or rejecting with an error
    and a world that satisfy [X]. *)
Definition wp {A} (m : Async A) (Q : A → World → Prop)
    (X : string → World → Prop) (w : World) : Prop :=
  match m w with
  | Returned a w' => Q a w'
  | Threw e w' => X e w'
  | OutOfFuel => False
  end.

Definition record (ev : Event) (w : World) : World :=
  mkWorld (now w) (awaits w) (scrollY w) ((now w, ev) :: history w).

Definition STABILITY_THRESHOLD : Z := 3.

Record ScrollOptions := mkScrollOptions {
  maxTimeout : option Z;
  scrollStep : option Z;
  stabilityTimeout : option Z
}.

Section Page.

Variable env : Env.

(** [Date.now()] *)
Definition dateNow : Async Z := fun w => Returned (now w) w.

(** [console.warn(msg)] *)
Definition consoleWarn (msg : string) : Async unit :=
  fun w => Returned tt (record (Warned msg) w).

(** [await new Promise((resolve) => setTimeout(resolve, ms))] *)
Definition sleep (ms : Z) : Async unit :=
  fun w =>
    Returned tt
      (mkWorld (now w + ms + latency env (awaits w)) (S (awaits w))
               (scrollY w) (history w)).

(** [await page.evaluate(script)]: the script sees the page as it is at this
    await, unless the evaluation rejects. *)
Definition evaluate {A} (script : nat → World → A * World) : Async A :=
  fun w =>
    let n := awaits w in
    let w1 := mkWorld (now w + latency env n) (S n) (scrollY w) (history w) in
    match rejects env n with
    | Some e => Threw e w1
    | None => let '(a, w2) := script n w1 in Returned a w2
    end.

Definition getScrollMetrics : Async ScrollMetrics :=
  evaluate (fun n w =>
    let m := mkScrollMetrics (innerHeight env n) (fullHeight env n)
                             (scrollY w) in
    (m, record (SawScroll m) w)).

Definition getLazyLoadMetrics : Async LazyLoadMetrics :=
  evaluate (fun n w => (lazyLoad env n, record (SawLazyLoad (lazyLoad env n)) w)).

(** The browser keeps the offset between the top and the last full
    viewport. *)
Definition clampScroll (n : nat) (y : Z) : Z :=
  Z.max 0 (Z.min y (fullHeight env n - innerHeight env n)).

(** [window.scrollBy(0, step)] *)
Definition scrollBy (step : Z) : Async unit :=
  evaluate (fun n w =>
    (tt, record (ScrolledBy step)
           (mkWorld (now w) (awaits w) (clampScroll n (scrollY w + step))
                    (history w)))).

(** [window.scrollTo(0, 0)] *)
Definition scrollToTop : Async unit :=
  evaluate (fun n w =>
    (tt, record (ScrolledTo 0)
           (mkWorld (now w) (awaits w) 0 (history w)))).

(** The test applied to the previous and the current sample, and again to the
    current and the confirming one. *)
Definition stableSince (before after : LazyLoadMetrics) : bool :=
  (imageCount after =? imageCount before) &&
  (iframeCount after =? iframeCount before) &&
  (pendingNetworkRequests after =? 0).

(** The [while] loop of [waitForLazyLoad]; [fuel] bounds its iterations. *)
Fixpoint waitForLazyLoad_loop (fuel : nat) (startTime timeout : Z)
    (previousMetrics : option LazyLoadMetrics) : Async unit :=
  (t ← dateNow;
   if t - startTime <? timeout then
     match fuel with
     | O => outOfFuel
     | S fuel' =>
         currentMetrics ← getLazyLoadMetrics;
         match previousMetrics with
         | None =>
             sleep 100;;
             waitForLazyLoad_loop fuel' startTime timeout (Some currentMetrics)
         | Some previous =>
             if stableSince previous currentMetrics then
               sleep 200;;
               finalCheck ← getLazyLoadMetrics;
               if stableSince currentMetrics finalCheck then ret tt
               else
                 sleep 100;;
                 waitForLazyLoad_loop fuel' startTime timeout
                                      (Some currentMetrics)
             else
               sleep 100;;
               waitForLazyLoad_loop fuel' startTime timeout
                                    (Some currentMetrics)
         end
     end
   else consoleWarn "Lazy load wait timeout reached")%async.

Definition waitForLazyLoad (fuel : nat) (timeout : Z) : Async unit :=
  (startTime ← dateNow;
   waitForLazyLoad_loop fuel startTime timeout None)%async.

(** The [while] loop of [intelligentScroll]; [fuel] bounds its iterations
    and those of each stability wait inside. *)
Fixpoint intelligentScroll_loop (fuel waitFuel : nat)
    (startTime maxTimeoutMs scrollStepPx stabilityTimeoutMs : Z)
    (lastDocumentHeight stabilityCounter : Z) : Async unit :=
  (t ← dateNow;
   if t - startTime <? maxTimeoutMs then
     match fuel with
     | O => outOfFuel
     | S fuel' =>
         metrics ← getScrollMetrics;
         if documentHeight metrics <=? scrollTop metrics + viewportHeight metrics
         then ret tt
         else
           let advance (last counter : Z) : Async unit :=
             scrollBy scrollStepPx;;
             waitForLazyLoad waitFuel stabilityTimeoutMs;;
             sleep 100;;
             intelligentScroll_loop fuel' waitFuel startTime maxTimeoutMs
               scrollStepPx stabilityTimeoutMs last counter in
           if documentHeight metrics =? lastDocumentHeight then
             if STABILITY_THRESHOLD <=? stabilityCounter + 1 then ret tt
             else advance lastDocumentHeight (stabilityCounter + 1)
           else advance (documentHeight metrics) 0
     end
   else ret tt)%async.

Definition intelligentScroll (fuel : nat) (options : ScrollOptions)
  : Async unit :=
  let maxTimeoutMs := default 30000 (maxTimeout options) in
  let scrollStepPx := default 250 (scrollStep options) in
  let stabilityTimeoutMs := default 5000 (stabilityTimeout options) in
  (startTime ← dateNow;
   intelligentScroll_loop fuel fuel startTime maxTimeoutMs scrollStepPx
     stabilityTimeoutMs 0 0;;
   scrollToTop;;
   sleep 500)%async.

End Page.

(** The scroll metrics and the document heights read so far, latest first. *)
Fixpoint scrollsSeen (h : list (Z * Event)) : list ScrollMetrics :=
  match h with
  | [] => []
  | (_, SawScroll m) :: h' => m :: scrollsSeen h'
  | _ :: h' => scrollsSeen h'
  end.

Definition heightsSeen (h : list (Z * Event)) : list Z :=
  documentHeight <$> scrollsSeen h.


(** What holds between the worlds before and after a stability wait started
    at [startTime] with budget [timeout], on a host whose awaits take at most
    [L] extra milliseconds: time moved forward and not past the budget by
    more than one round of the loop, and the page was only looked at. *)
Definition waited (L startTime timeout : Z) (w w' : World) : Prop :=
  now w ≤ now w' ∧
  now w' ≤ Z.max (now w) (startTime + timeout + 300 + 4 * L) ∧
  (awaits w ≤ awaits w')%nat ∧
  scrollY w' = scrollY w ∧
  scrollsSeen (history w') = scrollsSeen (history w).

(** The previous sample of the loop was taken at an earlier await. *)
Definition sampledBefore (env : Env) (previous : option LazyLoadMetrics)
    (w : World) : Prop :=
  match previous with
  | None => True
  | Some m => ∃ i, (i < awaits w)%nat ∧ m = lazyLoad env i
  end.

(** No sample ever looks stable next to an earlier one. *)
Definition neverStable (env : Env) : Prop :=
  ∀ i j, (i < j)%nat → stableSince (lazyLoad env i) (lazyLoad env j) = false.

Definition timeoutWarning : string := "Lazy load wait timeout reached".







(** The last look at the page found the bottom of the document in view. *)
Definition bottomSeen (h : list (Z * Event)) : Prop :=
  ∃ m rest, scrollsSeen h = m :: rest ∧
            documentHeight m ≤ scrollTop m + viewportHeight m.

(** The last three looks at the page found the same document height. *)
Definition heightSettled (h : list (Z * Event)) : Prop :=
  ∃ x rest, heightsSeen h = x :: x :: x :: rest.

(** What holds between the worlds before and after the scrolling loop started
    at [startTime]: time moved forward and not past the overall budget by
    more than one round, which is a scroll, a stability wait and a pause. *)
Definition scrolled (L startTime maxTimeoutMs stabilityTimeoutMs : Z)
    (w w' : World) : Prop :=
  now w ≤ now w' ∧
  now w' ≤ Z.max (now w)
             (startTime + maxTimeoutMs + Z.max 0 stabilityTimeoutMs
              + 400 + 7 * L).

(** The counter of the loop counts looks that found the tracked height. *)
Definition countsHeight (last counter : Z) (w : World) : Prop :=
  0 ≤ counter ∧
  ∃ rest, heightsSeen (history w) = replicate (Z.to_nat counter) last ++ rest.

(** A page that grows at every look and always has a request in flight,
    on a host without latency. *)
Definition growingPage : Env :=
  mkEnv (fun _ => 0) (fun _ => None) (fun _ => 1000)
        (fun n => 5000 + 1000 * Z.of_nat n)
        (fun n => mkLazyLoadMetrics (Z.of_nat n) 0 1).

(** A page of five viewports that has settled. *)
Definition quietPage : Env :=
  mkEnv (fun _ => 0) (fun _ => None) (fun _ => 1000) (fun _ => 5000)
        (fun _ => mkLazyLoadMetrics 12 1 0).

(** A page that gains two images after the first sample and then stays as it
    is. *)
Definition settlingPage : Env :=
  mkEnv (fun _ => 0) (fun _ => None) (fun _ => 1000) (fun _ => 5000)
        (fun n => mkLazyLoadMetrics (if (n <? 2)%nat then 10 else 12) 1 0).

(** A page that fits the viewport. *)
Definition shortPage : Env :=
  mkEnv (fun _ => 0) (fun _ => None) (fun _ => 1000) (fun _ => 800)
        (fun _ => mkLazyLoadMetrics 3 0 0).



Definition startWorld : World := mkWorld 0 0 0 [].

(** A four second scroll budget with the stability budget a tenth of it, as
    [captureScreenshot] sets them up, on a viewport of a thousand pixels. *)
Definition fourSeconds : ScrollOptions :=
  mkScrollOptions (Some 4000) (Some 800) (Some 400).

(** [ensures m Q X w]: if [m], started in [w], returns, it leaves a world in
    [Q]; if it rejects, one in [X]. *)
Definition ensures {A} (m : Async A) (Q X : World → Prop) (w : World) : Prop :=
  match m w with
  | Returned _ w' => Q w'
  | Threw _ w' => X w'
  | OutOfFuel => True
  end.

(** Events that only read the page or write to the console. *)
Definition isObservation (ev : Event) : bool :=
  match ev with
  | SawLazyLoad _ | Warned _ => true
  | _ => false
  end.

(** Between [w] and [w'] the page was at most sampled for its counts: the
    scroll offset is the same and the history grew by such samples and
    warnings only. *)
Definition onlyLooked (w w' : World) : Prop :=
  scrollY w' = scrollY w ∧
  ∃ added, history w' = added ++ history w ∧
           Forall (fun te => isObservation te.2 = true) added.

(** The number of [window.scrollBy] calls in a history. *)
Fixpoint scrollCommands (h : list (Z * Event)) : nat :=
  match h with
  | [] => 0
  | (_, ScrolledBy _) :: h' => S (scrollCommands h')
  | _ :: h' => scrollCommands h'
  end.

(** The number of samples of the counts in a history. *)
Fixpoint lazySamples (h : list (Z * Event)) : nat :=
  match h with
  | [] => 0
  | (_, SawLazyLoad _) :: h' => S (lazySamples h')
  | _ :: h' => lazySamples h'
  end.

(** Between [w] and [w'] at most [n] scroll commands were issued. *)
Definition scrolledAtMost (n : nat) (w w' : World) : Prop :=
  (scrollCommands (history w') ≤ scrollCommands (history w) + n)%nat.

(** The scroll commands the loop of [intelligentScroll] can still issue on a
    page whose height stays [h]. *)
Definition scrollBudget (h last counter : Z) : nat :=
  if last =? h then Z.to_nat (2 - counter) else 3%nat.

(** A tall page whose height never changes and that never settles. *)
Definition busyTallPage : Env :=
  mkEnv (fun _ => 0) (fun _ => None) (fun _ => 1000) (fun _ => 50000)
        (fun n => mkLazyLoadMetrics (Z.of_nat n) 0 1).

Definition thirtySeconds : ScrollOptions :=
  mkScrollOptions (Some 30000) (Some 800) (Some 1000).

Definition noBudget : ScrollOptions :=
  mkScrollOptions (Some 0) (Some 800) (Some 400).

(** Something the script of [smoothScroll] does inside the page, between two
    of its timers. *)
Definition inPage (f : World → World) : Async unit :=
  fun w => Returned tt (f w).

(** The interval callback of [smoothScroll], every 100 ms: it reads
    [document.body.scrollHeight], which is [bodyHeight tick] at that tick,
    scrolls down by [distance = 100] and adds that to [totalHeight]; once the
    total has reached the height it scrolls to the top, clears the interval
    and resolves after 500 ms. [fuel] bounds the ticks. *)
Fixpoint smoothScroll_ticks (env : Env) (bodyHeight : nat → Z) (fuel : nat)
    (tick : nat) (totalHeight : Z) : Async unit :=
  match fuel with
  | O => outOfFuel
  | S fuel' =>
      (sleep env 100;;
       inPage (fun w =>
         record (ScrolledBy 100)
           (mkWorld (now w) (awaits w)
                    (clampScroll env (awaits w) (scrollY w + 100))
                    (history w)));;
       if bodyHeight tick <=? totalHeight + 100 then
         inPage (fun w =>
           record (ScrolledTo 0) (mkWorld (now w) (awaits w) 0 (history w)));;
         sleep env 500
       else
         smoothScroll_ticks env bodyHeight fuel' (S tick) (totalHeight + 100)
      )%async
  end.

(** PageManager.smoothScroll: the script is evaluated in the page and the
    host awaits its promise. *)
Definition smoothScroll (env : Env) (bodyHeight : nat → Z) (fuel : nat)
  : Async unit :=
  (evaluate env (fun _ w => (tt, w));;
   smoothScroll_ticks env bodyHeight fuel 0 0)%async.

(** The ticks [smoothScroll] needs on a page whose body height stays [h]. *)
Definition ticksFor (h : Z) : nat := Z.to_nat (Z.max 1 ((h + 99) / 100)).

(** The last entry of the history is the timeout warning of the wait. *)
Definition timedOut (w : World) : Prop :=
  ∃ rest, history w = (now w, Warned timeoutWarning) :: rest.

(** A page of one viewport and a half, settled, behind a slow connection. *)
Definition slowPage : Env :=
  mkEnv (fun _ => 40) (fun _ => None) (fun _ => 1000) (fun _ => 1500)
        (fun _ => mkLazyLoadMetrics 4 0 0).

End Scrolling.

(** ** Capture orchestrator and HTTP surface *)

Module Service.

Inductive Format := Jpeg | Png.

Inductive WaitUntil := Load | DomContentLoaded | NetworkIdle0 | NetworkIdle2.

(** interface ScreenshotOptions; [None] is an absent field. *)
Record ScreenshotOptions := mkOptions {
  url : string;
  width : option Z;
  height : option Z;
  fullPage : option bool;
  quality : option Z;
  format : option Format;
  waitUntil : option WaitUntil;
  timeout : option Z;
  outputPath : option string
}.

(** The argument of [page.screenshot]. *)
Record ScreenshotParams := mkParams {
  paramFullPage : bool;
  paramType : Format;
  paramQuality : option Z
}.

(** The awaited calls of a capture that can reject. The scroller and the
    stability wait appear as single steps here: their timeouts are computed
    in floating point and their own behaviour is the subject of the
    Scrolling module. *)
Inductive Step :=
| LoadBlocker | LaunchBrowser
| NewPage | SetViewport | EnableBlocking
| SetRequestInterception | SuppressWidgets | Goto | HandleStickyElements
| GetScrollMetrics | IntelligentScroll | WaitForLazyLoad
| Screenshot | RestoreStickyElements | ClosePage
| WriteFile.

(** What one capture meets: which of its steps reject and with what message,
    and the bytes the browser encodes for given parameters. *)
Record Env := mkEnv {
  fails : Step → option string;
  render : ScreenshotParams → Js.Buffer
}.

Inductive PageStatus := Open | Closed.

(** The service object and what it holds on to: whether [this.browser] and
    [this.blocker] are set, the page handles created so far, the
    [page.screenshot] calls made, and the files written. *)
Record Server := mkServer {
  browserLaunched : bool;
  blockerLoaded : bool;
  pages : list PageStatus;
  shots : list (nat * ScreenshotParams);
  files : list (string * Js.Buffer)
}.

(** How a promise settles. *)
Inductive Settled (A : Type) :=
| Fulfilled (value : A)
| Rejected (reason : string).
Arguments Fulfilled {A} value.
Arguments Rejected {A} reason.

Definition Task (A : Type) : Type := Server → Settled A * Server.

Definition ret {A} (a : A) : Task A := fun s => (Fulfilled a, s).

Definition throw {A} (reason : string) : Task A := fun s => (Rejected reason, s).

Definition bind {A B} (m : Task A) (k : A → Task B) : Task B :=
  fun s =>
    match m s with
    | (Fulfilled a, s') => k a s'
    | (Rejected reason, s') => (Rejected reason, s')
    end.

(** [try { m } catch (error) { handler(error) }] *)
Definition tryCatch {A} (m : Task A) (handler : string → Task A) : Task A :=
  fun s =>
    match m s with
    | (Fulfilled a, s') => (Fulfilled a, s')
    | (Rejected reason, s') => handler reason s'
    end.

Declare Scope task_scope.
Delimit Scope task_scope with task.
Notation "x ← y ; z" := (bind y (fun x => z))
  (at level 20, y at level 100, z at level 200, only parsing) : task_scope.
Notation "x ;; z" := (bind x (fun _ => z))
  (at level 100, z at level 200, only parsing, right associativity)
  : task_scope.

Definition when (b : bool) (m : Task unit) : Task unit :=
  if b then m else ret tt.

Definition modify (f : Server → Server) : Task unit :=
  fun s => (Fulfilled tt, f s).

Definition initializationFailed : string :=
  "Failed to initialize screenshot service".

Definition browserMissing : string := "Browser initialization failed".

(** [{ ...body, outputPath: undefined }] *)
Definition withoutOutputPath (body : ScreenshotOptions) : ScreenshotOptions :=
  mkOptions (url body) (width body) (height body) (fullPage body)
            (quality body) (format body) (waitUntil body) (timeout body) None.

(** The same request with another quality. *)
Definition withQuality (q : option Z) (options : ScreenshotOptions)
  : ScreenshotOptions :=
  mkOptions (url options) (width options) (height options) (fullPage options)
            q (format options) (waitUntil options) (timeout options)
            (outputPath options).

(** The object literal passed to [page.screenshot]. *)
Definition screenshotParams (options : ScreenshotOptions) : ScreenshotParams :=
  mkParams (default true (fullPage options))
           (default Jpeg (format options))
           (match format options with
            | Some Jpeg => Some (default 80%Z (quality options))
            | _ => None
            end).

Section Capture.

Variable env : Env.

(** An awaited call that rejects when the environment says so. *)
Definition step (st : Step) : Task unit :=
  fun s =>
    match fails env st with
    | Some reason => (Rejected reason, s)
    | None => (Fulfilled tt, s)
    end.

(** [browser.newPage()]: a new handle, open. *)
Definition newPage : Task nat :=
  (step NewPage;;
   fun s =>
     (Fulfilled (length (pages s)),
      mkServer (browserLaunched s) (blockerLoaded s) (pages s ++ [Open])
               (shots s) (files s)))%task.

(** [page.close()] *)
Definition closePage (page : nat) : Task unit :=
  (step ClosePage;;
   modify (fun s =>
     mkServer (browserLaunched s) (blockerLoaded s)
              (<[page := Closed]> (pages s)) (shots s) (files s)))%task.

(** [page.screenshot(params)] *)
Definition pageScreenshot (page : nat) (params : ScreenshotParams)
  : Task Js.Buffer :=
  (step Screenshot;;
   modify (fun s =>
     mkServer (browserLaunched s) (blockerLoaded s) (pages s)
              (shots s ++ [(page, params)]) (files s));;
   ret (render env params))%task.

(** [writeFile(path, data)] *)
Definition writeFile (path : string) (data : Js.Buffer) : Task unit :=
  (step WriteFile;;
   modify (fun s =>
     mkServer (browserLaunched s) (blockerLoaded s) (pages s) (shots s)
              (files s ++ [(path, data)])))%task.

(** ScreenshotService.initialize *)
Definition initialize : Task unit :=
  tryCatch
    (step LoadBlocker;;
     modify (fun s =>
       mkServer (browserLaunched s) true (pages s) (shots s) (files s));;
     step LaunchBrowser;;
     modify (fun s =>
       mkServer true (blockerLoaded s) (pages s) (shots s) (files s)))%task
    (fun _ => throw initializationFailed).

(** PageManager.setupPage *)
Definition setupPage (options : ScreenshotOptions) : Task nat :=
  (page ← newPage;
   step SetViewport;;
   ret page)%task.

(** PageManager.blockChatWidgets: interception is switched on, the request
    handler is registered, and the removal script is evaluated. *)
Definition blockChatWidgets (page : nat) : Task unit :=
  (step SetRequestInterception;;
   step SuppressWidgets)%task.

(** PageManager.navigateAndPrepare. The consent hook registered with
    [page.once("load", ...)] catches its own errors and is not awaited. *)
Definition navigateAndPrepare (page : nat) (options : ScreenshotOptions)
  : Task unit :=
  (blockChatWidgets page;;
   step Goto;;
   step HandleStickyElements)%task.

(** PageManager.captureScreenshot *)
Definition captureScreenshot (page : nat) (options : ScreenshotOptions)
  : Task Js.Buffer :=
  (when (default false (fullPage options))
     (step GetScrollMetrics;;
      step IntelligentScroll;;
      step WaitForLazyLoad);;
   screenshot ← pageScreenshot page (screenshotParams options);
   step RestoreStickyElements;;
   closePage page;;
   ret screenshot)%task.

(** ScreenshotService.takeScreenshot *)
Definition takeScreenshot (options : ScreenshotOptions) : Task Js.Buffer :=
  ((fun s => when (negb (browserLaunched s)) initialize s);;
   (fun s =>
     if negb (browserLaunched s) then throw browserMissing s
     else
       tryCatch
         (page ← setupPage options;
          (fun s' => when (blockerLoaded s') (step EnableBlocking) s');;
          navigateAndPrepare page options;;
          screenshot ← captureScreenshot page options;
          match outputPath options with
          | Some path =>
              when (Js.truthy (outputPath options)) (writeFile path screenshot)
          | None => ret tt
          end;;
          ret screenshot)
         (fun error => throw error) s))%task.

End Capture.

(** ** The HTTP handlers *)

Record BatchEntry := mkEntry {
  entryUrl : string;
  success : bool;
  data : option string;
  error : option string
}.

Inductive Response :=
| ImageResponse (contentType : string) (contentLength : nat) (body : Js.Buffer)
| JsonError (status : Z) (error message : string)
| JsonResults (entries : list BatchEntry).

(** POST /screenshot, once the body has passed validation. *)
Definition screenshotHandler (env : Env) (body : ScreenshotOptions)
  : Server → Response * Server :=
  fun s =>
    match takeScreenshot env (withoutOutputPath body) s with
    | (Fulfilled screenshot, s') =>
        let contentType :=
          match format body with
          | Some Png => "image/png"
          | _ => "image/jpeg"
          end in
        (ImageResponse contentType (length screenshot) screenshot, s')
    | (Rejected message, s') =>
        (JsonError 500 "Failed to capture screenshot" message, s')
    end.

(** [Promise.allSettled]: every task runs and its outcome is kept, in the
    order of the tasks. The captures of a batch each have their own page, so
    they are run here one after the other. *)
Fixpoint allSettled {A} (tasks : list (Task A)) (s : Server)
  : list (Settled A) * Server :=
  match tasks with
  | [] => ([], s)
  | task :: tasks' =>
      let '(result, s1) := task s in
      let '(results, s2) := allSettled tasks' s1 in
      (result :: results, s2)
  end.

(** The callback of [results.map]. *)
Definition batchEntry (urls : list ScreenshotOptions) (index : nat)
    (result : Settled Js.Buffer) : BatchEntry :=
  mkEntry
    (match urls !! index with Some options => url options | None => "" end)
    (match result with Fulfilled _ => true | Rejected _ => false end)
    (match result with
     | Fulfilled value => Some (Js.toBase64 value)
     | Rejected _ => None
     end)
    (match result with
     | Fulfilled _ => None
     | Rejected reason => Some reason
     end).

(** POST /screenshots/batch; [envs i] is what the capture of the i-th
    element meets. A rejected capture carries the Error its failing step
    threw, so [result.reason.message] is there for the callback and the outer
    catch of the handler is not reached. *)
Definition batchHandler (envs : nat → Env) (urls : list ScreenshotOptions)
  : Server → Response * Server :=
  fun s =>
    let '(results, s') :=
      allSettled
        (imap (fun i options =>
                 takeScreenshot (envs i) (withoutOutputPath options)) urls)
        s in
    (JsonResults (imap (batchEntry urls) results), s').

(** The awaited calls of a capture, in the order the code makes them. *)
Definition pipeline (options : ScreenshotOptions) (s : Server) : list Step :=
  [NewPage; SetViewport]
  ++ (if blockerLoaded s then [EnableBlocking] else [])
  ++ [SetRequestInterception; SuppressWidgets; Goto; HandleStickyElements]
  ++ (if default false (fullPage options)
      then [GetScrollMetrics; IntelligentScroll; WaitForLazyLoad] else [])
  ++ [Screenshot; RestoreStickyElements; ClosePage]
  ++ (if Js.truthy (outputPath options) then [WriteFile] else []).

(** The first step of a list that rejects, with its message. *)
Fixpoint firstFailure (env : Env) (steps : list Step)
  : option (Step * string) :=
  match steps with
  | [] => None
  | st :: steps' =>
      match fails env st with
      | Some reason => Some (st, reason)
      | None => firstFailure env steps'
      end
  end.

(** Example inputs. *)
Definition jpegBytes : Js.Buffer := [xff; xd8; xff; xe0]%byte.
Definition pngBytes : Js.Buffer := [x89; x50; x4e; x47]%byte.

Definition demoRender (params : ScreenshotParams) : Js.Buffer :=
  match paramType params with
  | Jpeg => jpegBytes
  | Png => pngBytes
  end.

Definition reachable : Env := mkEnv (fun _ => None) demoRender.

Definition navigationError : string :=
  "net::ERR_NAME_NOT_RESOLVED at https://unreachable.invalid".

Definition unreachable : Env :=
  mkEnv (fun st => match st with Goto => Some navigationError | _ => None end)
        demoRender.

Definition readyServer : Server := mkServer true true [] [] [].

Definition exampleOptions : ScreenshotOptions :=
  mkOptions "https://example.com" None None None None None None None None.

Definition unreachableOptions : ScreenshotOptions :=
  mkOptions "https://unreachable.invalid" None None None None None None None
            (Some "/etc/cron.d/job").

Definition fileOptions : ScreenshotOptions :=
  mkOptions "https://example.com" None None None None None None None
            (Some "screenshots/example.jpg").

Definition pngOptions (q : option Z) : ScreenshotOptions :=
  mkOptions "https://example.com" None None None q (Some Png) None None None.

(** The three awaited calls of the scrolling stage. *)
Definition isScrollStep (st : Step) : bool :=
  match st with
  | GetScrollMetrics | IntelligentScroll | WaitForLazyLoad => true
  | _ => false
  end.

(** Two states of the service that agree on what it has launched. *)
Definition sameService (s1 s2 : Server) : Prop :=
  browserLaunched s1 = browserLaunched s2 ∧
  blockerLoaded s1 = blockerLoaded s2.

(** A capture that fails only in the scrolling stage. *)
Definition scrollFailure : string := "Protocol error (Runtime.callFunctionOn)".

Definition stuckScroller : Env :=
  mkEnv (fun st => if isScrollStep st then Some scrollFailure else None)
        demoRender.

Definition coldServer : Server := mkServer false false [] [] [].

Definition launchFailure : string := "Failed to launch the browser process!".

Definition noBrowser : Env :=
  mkEnv (fun st => match st with
                   | LaunchBrowser => Some launchFailure
                   | _ => None
                   end)
        demoRender.

Definition jpegOptions (q : option Z) : ScreenshotOptions :=
  mkOptions "https://example.com" None None None q (Some Jpeg) None None None.

End Service.

(** ** The command-line script *)

Module Cli.

Import Service.

(** What becomes of the [this.initialize()] that the constructor calls
    without awaiting it, as the run of the script sees it: it has fulfilled
    by the time of the cleanup, so that the browser it launched is in
    [this.browser] then; it is still pending when the script exits; or it
    rejects while the script runs, after [done] of the captures. Nothing
    handles that rejection, and the process ends there with status 1. *)
Inductive Startup :=
| StartupFulfilled
| StartupPending
| StartupRejected (done : nat).

(** What a run of the script meets: how the initialization started by the
    constructor ends, what the capture of the i-th URL meets (the
    initialization that the first capture awaits itself included), the
    reading of the clock that goes into its file name, and whether
    [browser.close()] rejects. *)
Record Env := mkEnv {
  startup : Startup;
  capture : nat → Service.Env;
  clock : nat → Z;
  closeFails : option string
}.


Definition urls : list string :=
  [ "https://about.scarf.sh/";
    "https://about.scarf.sh/scarf-executive-investor-growth-metrics/" ].

Definition outputDir : string := "screenshots".

(** The template literal of the output path, for [new Date().getTime()]. *)
Definition outputPathAt (t : Z) : string :=
  outputDir +:+ "/screenshot-" +:+ pretty t +:+ ".jpg".

Definition optionsFor (url : string) (t : Z) : ScreenshotOptions :=
  mkOptions url None None None None None None None (Some (outputPathAt t)).

(** ScreenshotService.cleanup: the browser is closed if there is one, and
    forgotten once the close has succeeded. *)
Definition cleanup (closeFails : option string) : Task unit :=
  fun s =>
    if browserLaunched s then
      match closeFails with
      | Some reason => (Rejected reason, s)
      | None =>
          (Fulfilled tt,
           mkServer false (blockerLoaded s) (pages s) (shots s) (files s))
      end
    else (Fulfilled tt, s).

(** [for (const url of urls)], from the URL at position [index] on. The
    buffer a capture returns is always truthy, so each turn only logs. *)
Fixpoint captureEach (e : Env) (index : nat) (urls : list string)
  : Task unit :=
  match urls with
  | [] => ret tt
  | url :: rest =>
      (screenshot ←
         takeScreenshot (capture e index) (optionsFor url (clock e index));
       captureEach e (S index) rest)%task
  end.

(** [new ScreenshotService()], on a disk that holds [disk]: no browser, no
    blocker and no page yet. The first capture of the loop is called in the
    same turn, so it finds [this.browser] unset and awaits an initialization
    of its own. *)
Definition newService (disk : list (string * Js.Buffer)) : Server :=
  mkServer false false [] [] disk.

(** The initialization started by the constructor, once fulfilled, has set
    [this.blocker] and [this.browser]. *)
Definition started (s : Server) : Server :=
  mkServer true true (pages s) (shots s) (files s).

(** [process.exit(0)] after the awaited cleanup of the [finally] block, or
    [process.exit(1)] from the handler on [run()] when the cleanup rejects. *)
Definition exitAfter (cleaned : Settled unit * Server) : Z * Server :=
  match cleaned with
  | (Fulfilled _, s) => (0%Z, s)
  | (Rejected _, s) => (1%Z, s)
  end.

(** [run] for a list of URLs, with the exit status of the process and the
    service and disk it leaves: the [catch] logs the error of the loop and
    the [finally] awaits the cleanup and exits. When the initialization
    started by the constructor rejects first, the process ends with status 1
    where it is, with the first [done] captures made at most. *)
Definition runWith (e : Env) (urls : list string)
    (disk : list (string * Js.Buffer)) : Z * Server :=
  let s0 := newService disk in
  match startup e with
  | StartupRejected done =>
      let '(_, s1) := captureEach e 0 (take done urls) s0 in (1%Z, s1)
  | StartupFulfilled =>
      let '(_, s1) := tryCatch (captureEach e 0 urls) (fun _ => ret tt) s0 in
      exitAfter (cleanup (closeFails e) (started s1))
  | StartupPending =>
      let '(_, s1) := tryCatch (captureEach e 0 urls) (fun _ => ret tt) s0 in
      exitAfter (cleanup (closeFails e) s1)
  end.

Definition run (e : Env) : list (string * Js.Buffer) → Z * Server :=
  runWith e urls.



Definition allReachable : Env :=
  mkEnv StartupFulfilled (fun _ => reachable)
        (fun i => 1700000000000 + Z.of_nat i)%Z None.

(** A run on a machine where no browser can be launched. *)
Definition withoutBrowser : Env :=
  mkEnv (StartupRejected 0) (fun _ => noBrowser)
        (fun i => 1700000000000 + Z.of_nat i)%Z None.

End Cli.

(* ===================================================================== *)
(** * Properties *)
(* ===================================================================== *)

Section NeutralizerFacts.

Import Neutralizer.

Lemma newSet_from_spec seen xs :
  NoDup (newSet_from seen xs) ∧
  (∀ x, x ∈ newSet_from seen xs → (x ∉ seen) ∧ (x ∈ xs)).
Proof.
  revert seen. induction xs as [|x xs IH]; intros seen; simpl.
  - split; [constructor | intros x Hx; inversion Hx].
  - case_bool_decide as Hin.
    + destruct (IH seen) as [Hnd Hsub]. split; [done|].
      intros y Hy. destruct (Hsub y Hy). split; [done | by right].
    + destruct (IH (x :: seen)) as [Hnd Hsub]. split.
      * constructor; [|done]. intros Hx. destruct (Hsub x Hx) as [Hn _].
        apply Hn. by left.
      * intros y Hy. apply elem_of_cons in Hy as [->|Hy].
        -- split; [done | by left].
        -- destruct (Hsub y Hy) as [Hn Hy']. split; [|by right].
           intros Hs. apply Hn. by right.
Qed.

Lemma newSet_NoDup xs : NoDup (newSet xs).
Proof. apply newSet_from_spec. Qed.


Lemma set_cssText_same e : set_cssText (cssText e) e = e.
Proof. by destruct e. Qed.

Lemma finalCss_notin rs i c : i ∉ element <$> rs → finalCss rs i c = c.
Proof.
  revert c. induction rs as [|r rs IH]; intros c Hi; [done|].
  rewrite fmap_cons, not_elem_of_cons in Hi. destruct Hi as [Hne Hi].
  unfold finalCss in *. simpl.
  destruct (Nat.eqb_spec (element r) i) as [Heq|_]; [congruence|]. by apply IH.
Qed.

Lemma finalCss_in rs r c :
  NoDup (element <$> rs) → r ∈ rs → finalCss rs (element r) c = style r.
Proof.
  revert c. induction rs as [|r' rs IH]; intros c Hnd Hr; [inversion Hr|].
  rewrite fmap_cons in Hnd. apply NoDup_cons in Hnd as [Hfresh Hnd].
  apply elem_of_cons in Hr as [->|Hr].
  - unfold finalCss. simpl. rewrite Nat.eqb_refl.
    by apply finalCss_notin.
  - unfold finalCss in *. simpl.
    destruct (Nat.eqb_spec (element r') (element r)) as [Heq|_].
    + exfalso. apply Hfresh. rewrite Heq. by apply list_elem_of_fmap_2.
    + by apply IH.
Qed.

(** What [restoreStickyElements] leaves at every element reference. *)
Lemma writeBack_all_lookup rs d i :
  fold_left writeBack rs d !! i
  = (λ e, set_cssText (finalCss rs i (cssText e)) e) <$> d !! i.
Proof.
  revert d. induction rs as [|r rs IH]; intros d; simpl.
  - destruct (d !! i) as [e|]; simpl; [|done]. by rewrite set_cssText_same.
  - rewrite IH. unfold writeBack at 1. unfold finalCss. simpl.
    destruct (Nat.eqb_spec (element r) i) as [<-|Hne].
    + rewrite list_lookup_alter_eq. by destruct (d !! element r).
    + by rewrite list_lookup_alter_ne.
Qed.

Lemma finalCss_notin_lookup rs (d : list Element) i :
  i ∉ element <$> rs →
  (λ e, set_cssText (finalCss rs i (cssText e)) e) <$> d !! i = d !! i.
Proof.
  intros Hi. destruct (d !! i) as [e|]; simpl; [|done].
  by rewrite finalCss_notin, set_cssText_same.
Qed.

(** A second run of the write-backs finds every style already in place. *)
Lemma finalCss_idem rs i c : finalCss rs i (finalCss rs i c) = finalCss rs i c.
Proof.
  assert (H : ∀ c1 c2, finalCss rs i c1 = finalCss rs i c2 ∨
                       (∀ c', finalCss rs i c' = c')).
  { induction rs as [|r rs IH]; intros c1 c2; [by right|].
    unfold finalCss in *. simpl.
    destruct (Nat.eqb_spec (element r) i) as [_|_]; [by left|].
    destruct (IH c1 c2) as [Heq|Hid]; [by left | by right]. }
  destruct (H (finalCss rs i c) c) as [Heq|Hid]; [done | by rewrite !Hid].
Qed.

Variable computedPosition : list Element → nat → string.
Variable setProperty : string → string → string → string → string.

Lemma modifyStep_recorded d0 st i :
  recorded d0 st → i ∉ element <$> st.2 →
  recorded d0 (modifyStep computedPosition setProperty st i) ∧
  (∀ j, j ∈ element <$> (modifyStep computedPosition setProperty st i).2 →
        j = i ∨ j ∈ element <$> st.2).
Proof.
  destruct st as [d acc]. intros (Hnd & Hrec & Hrest) Hi. simpl in *.
  destruct (d !! i) as [e|] eqn:He; [|by split; [|auto]].
  destruct (isFixedOrSticky computedPosition d i); [|by split; [|auto]].
  assert (Hlt : i < length d) by (by eapply lookup_lt_Some).
  split; [split; [|split]|]; simpl.
  - rewrite fmap_app. apply NoDup_app. split; [done|]. split.
    + intros x Hx Hx'. apply list_elem_of_singleton in Hx'. by subst.
    + apply NoDup_singleton.
  - intros r Hr. apply elem_of_app in Hr as [Hr|Hr].
    + destruct (Hrec r Hr) as (e0 & c & H0 & Hs & Hd).
      exists e0, c. split; [done|]. split; [done|].
      rewrite list_lookup_insert_ne; [done|].
      intros ->. apply Hi. by apply list_elem_of_fmap_2.
    + apply list_elem_of_singleton in Hr as ->. simpl.
      exists e. eexists. rewrite <- (Hrest i Hi), He.
      split; [done|]. split; [done|].
      by rewrite list_lookup_insert_eq.
  - intros j Hj. rewrite fmap_app, elem_of_app in Hj.
    rewrite list_lookup_insert_ne.
    + apply Hrest. tauto.
    + intros ->. apply Hj. right. by apply list_elem_of_singleton.
  - intros j Hj. rewrite fmap_app, elem_of_app in Hj.
    destruct Hj as [Hj|Hj]; [by right|]. apply list_elem_of_singleton in Hj. by left.
Qed.

Lemma modifyLoop_recorded d0 xs st :
  NoDup xs → (∀ x, x ∈ xs → x ∉ element <$> st.2) → recorded d0 st →
  recorded d0 (fold_left (modifyStep computedPosition setProperty) xs st).
Proof.
  revert st. induction xs as [|x xs IH]; intros st Hnd Hfresh Hst; [done|].
  apply NoDup_cons in Hnd as [Hx Hnd]. simpl.
  destruct (modifyStep_recorded d0 st x Hst) as [Hst' Hsub].
  { apply Hfresh. by left. }
  apply IH; [done| |done].
  intros y Hy Hy'. destruct (Hsub y Hy') as [->|Hold]; [done|].
  apply (Hfresh y); [by right | done].
Qed.

Lemma modifyStickyElements_recorded d0 :
  recorded d0 (modifyStickyElements computedPosition setProperty d0).
Proof.
  apply modifyLoop_recorded.
  - apply newSet_NoDup.
  - intros x _ Hx. inversion Hx.
  - split; [constructor|]. split; [intros r Hr; inversion Hr | done].
Qed.

Lemma finalCss_same rs i s :
  (∀ r, r ∈ rs → element r = i → style r = s) → finalCss rs i s = s.
Proof.
  induction rs as [|r rs IH]; intros Hall; [done|].
  unfold finalCss in *. simpl.
  destruct (Nat.eqb_spec (element r) i) as [Heq|_].
  - rewrite (Hall r); [|by left|done]. apply IH.
    intros r' Hr'. apply Hall. by right.
  - apply IH. intros r' Hr'. apply Hall. by right.
Qed.

Lemma finalCss_agreed rs r c :
  r ∈ rs → (∀ r', r' ∈ rs → element r' = element r → style r' = style r) →
  finalCss rs (element r) c = style r.
Proof.
  revert c. induction rs as [|r0 rs IH]; intros c Hr Hall; [inversion Hr|].
  assert (Htail : ∀ r', r' ∈ rs → element r' = element r → style r' = style r).
  { intros r' Hr'. apply Hall. by right. }
  apply elem_of_cons in Hr as [->|Hr].
  - unfold finalCss. simpl. rewrite Nat.eqb_refl. by apply finalCss_same.
  - unfold finalCss in *. simpl.
    destruct (Nat.eqb_spec (element r0) (element r)) as [Heq|_].
    + rewrite (Hall r0); [|by left|done]. by apply finalCss_same.
    + by apply IH.
Qed.

(** C4. Round trip of the overlay neutralizer: every element that
    [handleStickyElements] records, with original inline style S, is back at
    exactly S (indeed the whole element, and the whole DOM, is back) after
    [restoreStickyElements]; and a restore with the slot undefined (neutralize
    never ran) or holding no record changes nothing. *)
Theorem neutralize_restore_roundtrip (p : Page) :
  let p1 := handleStickyElements computedPosition setProperty p in
  (∀ rs r, originalStickyStyles p1 = Some rs → r ∈ rs →
     ∃ e0, dom p !! element r = Some e0 ∧ style r = cssText e0 ∧
           dom (restoreStickyElements p1) !! element r = Some e0) ∧
  dom (restoreStickyElements p1) = dom p ∧
  (∀ q, originalStickyStyles q = None → restoreStickyElements q = q) ∧
  (∀ q, originalStickyStyles q = Some [] → restoreStickyElements q = q).
Proof.
  intros p1. subst p1. unfold handleStickyElements.
  pose proof (modifyStickyElements_recorded (dom p)) as Hrec.
  destruct (modifyStickyElements computedPosition setProperty (dom p))
    as [d acc] eqn:Hmod.
  destruct Hrec as (Hnd & Hin & Hout). simpl in *.
  assert (Hback : ∀ i, fold_left writeBack acc d !! i = dom p !! i).
  { intros i. rewrite writeBack_all_lookup.
    destruct (decide (i ∈ element <$> acc)) as [Hi|Hi].
    - apply list_elem_of_fmap in Hi as (r & -> & Hr).
      destruct (Hin r Hr) as (e0 & c & H0 & Hs & Hd).
      rewrite Hd, H0. simpl. f_equal.
      rewrite (finalCss_in acc r); [|done|done].
      rewrite Hs. by destruct e0.
    - rewrite finalCss_notin_lookup; [by apply Hout | done]. }
  repeat split.
  - intros rs r [= <-] Hr. unfold restoreStickyElements. simpl.
    destruct (Hin r Hr) as (e0 & c & H0 & Hs & Hd).
    exists e0. by rewrite Hback.
  - unfold restoreStickyElements. simpl. by apply list_eq.
  - intros q Hq. unfold restoreStickyElements. by rewrite Hq.
  - intros q Hq. unfold restoreStickyElements. rewrite Hq. simpl.
    destruct q. simpl in *. by rewrite Hq.
Qed.

End NeutralizerFacts.

(** C8, as the code has it. [restoreStickyElements] writes each recorded
    style text back verbatim and leaves the slot as it found it; running it
    again rewrites the same texts and changes nothing. *)
Theorem restore_writes_back_and_keeps_slot
    (q : Neutralizer.Page) (rs : list Neutralizer.StickyStyle) :
  Neutralizer.originalStickyStyles q = Some rs →
  (∀ r e, r ∈ rs →
     (∀ r', r' ∈ rs → Neutralizer.element r' = Neutralizer.element r →
            Neutralizer.style r' = Neutralizer.style r) →
     Neutralizer.dom q !! Neutralizer.element r = Some e →
     Neutralizer.dom (Neutralizer.restoreStickyElements q)
       !! Neutralizer.element r
     = Some (Neutralizer.set_cssText (Neutralizer.style r) e)) ∧
  Neutralizer.originalStickyStyles (Neutralizer.restoreStickyElements q)
  = Some rs ∧
  Neutralizer.restoreStickyElements (Neutralizer.restoreStickyElements q)
  = Neutralizer.restoreStickyElements q.
Proof.
  intros Hq. unfold Neutralizer.restoreStickyElements. rewrite Hq. simpl.
  repeat split.
  - intros r e Hr Hall He. rewrite writeBack_all_lookup, He. simpl.
    by rewrite finalCss_agreed.
  - f_equal. apply list_eq. intros i. rewrite !writeBack_all_lookup.
    destruct (Neutralizer.dom q !! i) as [e|]; simpl; [|done].
    by rewrite finalCss_idem.
Qed.

(** The header of the demo page, recorded with its style and restored. *)
Lemma neutralize_restore_roundtrip_witness :
  ∃ e0,
    Neutralizer.dom Neutralizer.demoPage !! 0 = Some e0 ∧
    "position: fixed; top: 10px;" = Neutralizer.cssText e0 ∧
    Neutralizer.dom
      (Neutralizer.restoreStickyElements
         (Neutralizer.handleStickyElements
            Neutralizer.demoComputed Neutralizer.demoSetProperty
            Neutralizer.demoPage)) !! 0 = Some e0.
Proof.
  destruct (neutralize_restore_roundtrip
              Neutralizer.demoComputed Neutralizer.demoSetProperty
              Neutralizer.demoPage) as [Hrec _].
  apply (Hrec [Neutralizer.mkStickyStyle 0 "position: fixed; top: 10px;";
               Neutralizer.mkStickyStyle 2 "position: sticky;"]
              (Neutralizer.mkStickyStyle 0 "position: fixed; top: 10px;")).
  - reflexivity.
  - apply list_elem_of_here.
Defined.

Lemma restore_writes_back_and_keeps_slot_witness :
  Neutralizer.originalStickyStyles
    (Neutralizer.restoreStickyElements
       (Neutralizer.handleStickyElements
          Neutralizer.demoComputed Neutralizer.demoSetProperty
          Neutralizer.demoPage))
  = Some [Neutralizer.mkStickyStyle 0 "position: fixed; top: 10px;";
          Neutralizer.mkStickyStyle 2 "position: sticky;"].
Proof.
  apply (restore_writes_back_and_keeps_slot
           (Neutralizer.handleStickyElements
              Neutralizer.demoComputed Neutralizer.demoSetProperty
              Neutralizer.demoPage)).
  reflexivity.
Defined.

(** C8 as stated fails: after neutralize and restore on the demo page the
    slot is neither undefined nor empty. *)
Lemma restore_does_not_clear_slot :
  let p2 := Neutralizer.restoreStickyElements
              (Neutralizer.handleStickyElements
                 Neutralizer.demoComputed Neutralizer.demoSetProperty
                 Neutralizer.demoPage) in
  ¬ (Neutralizer.originalStickyStyles p2 = None ∨
     Neutralizer.originalStickyStyles p2 = Some []).
Proof. intros p2 [H|H]; vm_compute in H; discriminate H. Qed.

Section SuppressorFacts.

Import Suppressor.

Example blocks_intercom : isBlocked "https://widget.intercom.io/widget/abc" = true.
Proof. reflexivity. Qed.

Example blocks_facebook_chat :
  isBlocked "https://connect.facebook.com/en_us/sdk/customer_chat.js" = true.
Proof. reflexivity. Qed.

Example passes_facebook_other :
  isBlocked "https://connect.facebook.com/en_us/sdk.js" = false.
Proof. reflexivity. Qed.

Lemma blockPatterns_compile :
  Forall (λ p, is_Some (compile (regexPattern p))) blockPatterns.
Proof. repeat constructor; by eexists. Qed.

Lemma compile_plain p :
  plainPattern p = true → compile (regexPattern p) = Some (literals p).
Proof.
  unfold regexPattern. induction p as [|c p IH]; intros Hp; [done|].
  simpl in Hp. apply andb_true_iff in Hp as [Hc Hp]. specialize (IH Hp).
  simpl. destruct (Ascii.eqb_spec c ".") as [->|Hdot].
  - simpl. by rewrite IH.
  - unfold isPlain in Hc. apply orb_true_iff in Hc as [Hc|Hc].
    { apply Ascii.eqb_eq in Hc. done. }
    apply negb_true_iff in Hc. pose proof Hc as Hsyn.
    unfold isSyntaxCharacter in Hc. simpl in Hc.
    repeat (apply orb_false_iff in Hc as [? Hc]).
    assert (Hstar : Ascii.eqb c "*" = false) by done.
    assert (Hback : Ascii.eqb c backslash = false) by done.
    assert (Hd : Ascii.eqb c "." = false) by done.
    simpl. rewrite Hstar. simpl. rewrite Hback, Hd, Hsyn, IH. done.
Qed.

Lemma matchHere_literals p s : matchHere (literals p) s = Js.startsWith s p.
Proof.
  revert s. induction p as [|c p IH]; intros s; [done|].
  destruct s as [|d s]; simpl; [done|]. by rewrite IH.
Qed.

Lemma test_literals p s : test (literals p) s = Js.includes s p.
Proof.
  induction s as [|d s IH]; simpl; rewrite matchHere_literals; [done|].
  by rewrite IH.
Qed.

(** For a pattern without a wildcard the translated expression is a plain
    substring search. *)
Lemma patternMatches_plain url p :
  plainPattern p = true → patternMatches url p = Js.includes url p.
Proof.
  intros Hp. unfold patternMatches. rewrite (compile_plain p Hp).
  apply test_literals.
Qed.

Lemma resolveWith_inl how fault r r' :
  resolveWith how fault r = inl r' →
  resolutions r = [] ∧ fault = None ∧ resolutions r' = [how] ∧
  requestUrl r' = requestUrl r.
Proof.
  unfold resolveWith. destruct (resolutions r) eqn:Hr; [|done].
  destruct fault; [done|]. by intros [= <-].
Qed.

Lemma resolveWith_pending how r :
  resolutions r = [] →
  resolveWith how None r = inl (mkRequest (requestUrl r) [how]).
Proof. intros Hr. unfold resolveWith. by rewrite Hr. Qed.

Lemma resolveWith_fault how msg r :
  resolutions r = [] → resolveWith how (Some msg) r = inr msg.
Proof. intros Hr. unfold resolveWith. by rewrite Hr. Qed.

Lemma resolveWith_handled how fault r :
  resolutions r ≠ [] → resolveWith how fault r = inr alreadyHandled.
Proof. unfold resolveWith. by destruct (resolutions r). Qed.

(** C2, as the code has it. On a pending request whose resolving call does
    not fail, a URL that matches a pattern is aborted and any other URL is
    continued, once. When the first call fails, one more [continue] is tried:
    if it takes effect the request is continued, whatever its URL, and if it
    fails too the request is left as it was. A request already resolved by
    someone else is left alone, and no request ends up resolved twice. *)
Theorem onRequest_resolution (f : Faults) (r : HTTPRequest) :
  let r' := (onRequest f r).1 in
  (resolutions r = [] → firstCall f = None →
     resolutions r' =
       [if isBlocked (Js.toLowerCase (requestUrl r)) then Aborted
        else Continued]) ∧
  (resolutions r = [] → is_Some (firstCall f) → fallbackCall f = None →
     resolutions r' = [Continued]) ∧
  (resolutions r = [] → is_Some (firstCall f) → is_Some (fallbackCall f) →
     r' = r) ∧
  (resolutions r ≠ [] → r' = r) ∧
  ((List.length (resolutions r) ≤ 1)%nat →
   (List.length (resolutions r') ≤ 1)%nat).
Proof.
  intros r'. subst r'. unfold onRequest, abort, continue.
  repeat split.
  - intros Hr Hf. rewrite Hf.
    destruct (isBlocked _); by rewrite resolveWith_pending.
  - intros Hr [e He] Hf. rewrite He, Hf.
    destruct (isBlocked _); rewrite resolveWith_fault by done;
      by rewrite resolveWith_pending.
  - intros Hr [e He] [e' He']. rewrite He, He'.
    destruct (isBlocked _); by rewrite !resolveWith_fault.
  - intros Hr. destruct (isBlocked _); by rewrite !resolveWith_handled.
  - intros Hlen.
    destruct (if isBlocked _ then _ else _) as [r1|e] eqn:H1.
    + assert (∃ how, resolveWith how (firstCall f) r = inl r1) as [how Hhow]
        by (destruct (isBlocked _); eauto).
      apply resolveWith_inl in Hhow as (_ & _ & Hone & _). simpl.
      by rewrite Hone.
    + destruct (resolveWith Continued (fallbackCall f) r) as [r2|e2] eqn:H2;
        [|done].
      apply resolveWith_inl in H2 as (_ & _ & Hone & _). simpl.
      by rewrite Hone.
Qed.

End SuppressorFacts.

Lemma onRequest_resolution_witness :
  Suppressor.resolutions
    (Suppressor.onRequest (Suppressor.mkFaults None None)
                          Suppressor.intercomRequest).1
  = [Suppressor.Aborted] ∧
  Suppressor.resolutions
    (Suppressor.onRequest (Suppressor.mkFaults None None)
                          Suppressor.exampleRequest).1
  = [Suppressor.Continued].
Proof.
  split.
  - destruct (onRequest_resolution (Suppressor.mkFaults None None)
                                   Suppressor.intercomRequest) as [H _].
    exact (H eq_refl eq_refl).
  - destruct (onRequest_resolution (Suppressor.mkFaults None None)
                                   Suppressor.exampleRequest) as [H _].
    exact (H eq_refl eq_refl).
Defined.

(** C2 as stated fails when a resolving call throws. A request to a blocked
    host that another handler has continued stays continued: [abort] and the
    [continue] of the catch block both reject. A pending request to a blocked
    host whose [abort] is failed by the browser is continued by the catch
    block, and when that [continue] fails as well the handler returns with
    the request still pending. *)
Lemma onRequest_fault_counterexample :
  Suppressor.isBlocked
    (Js.toLowerCase (Suppressor.requestUrl Suppressor.racedRequest)) = true ∧
  Suppressor.resolutions
    (Suppressor.onRequest (Suppressor.mkFaults None None)
                          Suppressor.racedRequest).1
  = [Suppressor.Continued] ∧
  Suppressor.isBlocked
    (Js.toLowerCase (Suppressor.requestUrl Suppressor.intercomRequest)) = true ∧
  Suppressor.resolutions
    (Suppressor.onRequest
       (Suppressor.mkFaults (Some Suppressor.sessionClosed) None)
       Suppressor.intercomRequest).1
  = [Suppressor.Continued] ∧
  Suppressor.resolutions
    (Suppressor.onRequest
       (Suppressor.mkFaults (Some Suppressor.sessionClosed)
                            (Some Suppressor.sessionClosed))
       Suppressor.intercomRequest).1
  = [].
Proof. repeat split. Qed.

Section ScrollingFacts.

Import Scrolling.
Local Open Scope Z_scope.

Lemma wp_ret {A} (a : A) Q X w : Q a w → wp (ret a) Q X w.
Proof. done. Qed.

Lemma wp_bind {A B} (m : Async A) (k : A → Async B) Q X w :
  wp m (λ a w', wp (k a) Q X w') X w → wp (bind m k) Q X w.
Proof. unfold wp, bind. by destruct (m w). Qed.

Lemma wp_mono {A} (m : Async A) (Q Q' : A → World → Prop)
    (X X' : string → World → Prop) w :
  (∀ a w', Q a w' → Q' a w') → (∀ e w', X e w' → X' e w') →
  wp m Q X w → wp m Q' X' w.
Proof. unfold wp. intros HQ HX. destruct (m w); auto. Qed.

Lemma wp_returned {A} (m : Async A) Q w :
  wp m Q (λ _ _, False) w → ∃ a w', m w = Returned a w' ∧ Q a w'.
Proof. unfold wp. destruct (m w); [eauto|done..]. Qed.

Variable env : Env.

Lemma wp_dateNow Q X w : Q (now w) w → wp dateNow Q X w.
Proof. done. Qed.

Lemma wp_sleep ms Q X w :
  Q tt (mkWorld (now w + ms + latency env (awaits w)) (S (awaits w))
                (scrollY w) (history w)) →
  wp (sleep env ms) Q X w.
Proof. done. Qed.

Lemma wp_consoleWarn msg Q X w :
  Q tt (record (Warned msg) w) → wp (consoleWarn msg) Q X w.
Proof. done. Qed.

Lemma wp_evaluate {A} (script : nat → World → A * World) Q X w :
  let w1 := mkWorld (now w + latency env (awaits w)) (S (awaits w))
                    (scrollY w) (history w) in
  (∀ e, rejects env (awaits w) = Some e → X e w1) →
  (rejects env (awaits w) = None →
   Q (script (awaits w) w1).1 (script (awaits w) w1).2) →
  wp (evaluate env script) Q X w.
Proof.
  intros w1 HX HQ. unfold wp, evaluate. fold w1.
  destruct (rejects env (awaits w)) as [e|]; [by apply HX|].
  specialize (HQ eq_refl). by destruct (script (awaits w) w1).
Qed.

Lemma wp_getLazyLoadMetrics Q X w :
  let w1 := mkWorld (now w + latency env (awaits w)) (S (awaits w))
                    (scrollY w) (history w) in
  (∀ e, rejects env (awaits w) = Some e → X e w1) →
  (rejects env (awaits w) = None →
   Q (lazyLoad env (awaits w))
     (record (SawLazyLoad (lazyLoad env (awaits w))) w1)) →
  wp (getLazyLoadMetrics env) Q X w.
Proof. intros w1 HX HQ. by apply wp_evaluate. Qed.

Lemma wp_getScrollMetrics Q X w :
  let w1 := mkWorld (now w + latency env (awaits w)) (S (awaits w))
                    (scrollY w) (history w) in
  let m := mkScrollMetrics (innerHeight env (awaits w))
                           (fullHeight env (awaits w)) (scrollY w) in
  (∀ e, rejects env (awaits w) = Some e → X e w1) →
  (rejects env (awaits w) = None → Q m (record (SawScroll m) w1)) →
  wp (getScrollMetrics env) Q X w.
Proof. intros w1 m HX HQ. by apply wp_evaluate. Qed.

Lemma wp_scrollBy step Q X w :
  let w1 := mkWorld (now w + latency env (awaits w)) (S (awaits w))
                    (scrollY w) (history w) in
  (∀ e, rejects env (awaits w) = Some e → X e w1) →
  (rejects env (awaits w) = None →
   Q tt (record (ScrolledBy step)
           (mkWorld (now w1) (awaits w1)
                    (clampScroll env (awaits w) (scrollY w + step))
                    (history w)))) →
  wp (scrollBy env step) Q X w.
Proof. intros w1 HX HQ. by apply wp_evaluate. Qed.

Lemma wp_scrollToTop Q X w :
  let w1 := mkWorld (now w + latency env (awaits w)) (S (awaits w))
                    (scrollY w) (history w) in
  (∀ e, rejects env (awaits w) = Some e → X e w1) →
  (rejects env (awaits w) = None →
   Q tt (record (ScrolledTo 0)
           (mkWorld (now w1) (awaits w1) 0 (history w)))) →
  wp (scrollToTop env) Q X w.
Proof. intros w1 HX HQ. by apply wp_evaluate. Qed.

Variable L : Z.
Hypothesis latency_bound : ∀ n, 0 ≤ latency env n ≤ L.

Ltac latencies :=
  repeat match goal with
         | |- context [latency env ?n] =>
             lazymatch goal with
             | _ : 0 ≤ latency env n ≤ L |- _ => fail
             | _ => pose proof (latency_bound n)
             end
         | H : context [latency env ?n] |- _ =>
             lazymatch goal with
             | _ : 0 ≤ latency env n ≤ L |- _ => fail
             | _ => pose proof (latency_bound n)
             end
         end.

Ltac world_simpl := cbn [now awaits scrollY history record] in *.

Lemma waitForLazyLoad_loop_spec fuel :
  ∀ startTime timeout previous w,
    startTime ≤ now w →
    startTime + timeout - now w ≤ 100 * Z.of_nat fuel →
    sampledBefore env previous w →
    wp (waitForLazyLoad_loop env fuel startTime timeout previous)
       (λ _ w', waited L startTime timeout w w' ∧
                (neverStable env →
                 timeout ≤ now w' - startTime ∧
                 ∃ rest, history w' = (now w', Warned timeoutWarning) :: rest))
       (λ e w', waited L startTime timeout w w' ∧
                ∃ n, rejects env n = Some e) w.
Proof.
  induction fuel as [|fuel IH]; intros startTime timeout previous w Hstart Hfuel Hprev.
  - simpl. apply wp_bind, wp_dateNow.
    destruct (Z.ltb_spec (now w - startTime) timeout) as [Hlt|Hge]; [lia|].
    apply wp_consoleWarn. unfold waited. simpl.
    repeat split; [lia..| |]; [lia | eauto].
  - simpl. apply wp_bind, wp_dateNow.
    destruct (Z.ltb_spec (now w - startTime) timeout) as [Hlt|Hge].
    2:{ apply wp_consoleWarn. unfold waited. simpl.
        repeat split; [lia..| |]; [lia | eauto]. }
    apply wp_bind, wp_getLazyLoadMetrics.
    { intros e He. unfold waited. simpl. latencies.
      repeat split; [lia..|eauto]. }
    intros Hok.
    set (current := lazyLoad env (awaits w)).
    assert (Hrec : ∀ w2,
      now w ≤ now w2 → now w2 ≤ now w + 200 + 3 * L →
      (awaits w < awaits w2)%nat → scrollY w2 = scrollY w →
      scrollsSeen (history w2) = scrollsSeen (history w) →
      wp (bind (sleep env 100)
            (λ _, waitForLazyLoad_loop env fuel startTime timeout
                    (Some current)))
         (λ _ w', waited L startTime timeout w w' ∧
                  (neverStable env →
                   timeout ≤ now w' - startTime ∧
                   ∃ rest, history w' = (now w', Warned timeoutWarning) :: rest))
         (λ e w', waited L startTime timeout w w' ∧
                  ∃ n, rejects env n = Some e) w2).
    { intros w2 Hlo Hhi Haw Hsc Hseen. apply wp_bind, wp_sleep.
      pose proof (latency_bound (awaits w2)).
      eapply wp_mono; [| |apply IH].
      - intros _ w' [(? & ? & ? & ? & ?) Hnever]. split; [|done].
        unfold waited. simpl in *. repeat split; try lia; congruence.
      - intros e w' [(? & ? & ? & ? & ?) Hrej]. split; [|done].
        unfold waited. simpl in *. repeat split; try lia; congruence.
      - simpl. lia.
      - simpl. lia.
      - simpl. exists (awaits w). split; [lia|done]. }
    latencies.
    destruct previous as [previous|].
    2:{ apply Hrec; simpl; lia || done. }
    destruct (stableSince previous current) eqn:Hstable.
    2:{ apply Hrec; simpl; lia || done. }
    apply wp_bind, wp_sleep. apply wp_bind, wp_getLazyLoadMetrics.
    { intros e He. unfold waited. simpl. latencies.
      repeat split; [lia..|eauto]. }
    intros Hok2. simpl awaits.
    destruct (stableSince current _) eqn:Hconfirm.
    + apply wp_ret. split.
      * unfold waited. simpl. latencies. repeat split; lia.
      * intros Hnever. destruct Hprev as (i & Hi & ->).
        unfold current in Hstable. rewrite (Hnever i (awaits w) Hi) in Hstable.
        done.
    + apply Hrec; simpl; latencies; lia || done.
Qed.

(** [waitForLazyLoad] ends within its budget plus one round of its loop
    whatever the page does; it rejects only if an evaluation does; and on a
    page that never looks stable it returns through the timeout warning. *)
Lemma waitForLazyLoad_spec fuel timeout w :
  timeout ≤ 100 * Z.of_nat fuel →
  wp (waitForLazyLoad env fuel timeout)
     (λ _ w', waited L (now w) timeout w w' ∧
              (neverStable env →
               timeout ≤ now w' - now w ∧
               ∃ rest, history w' = (now w', Warned timeoutWarning) :: rest))
     (λ e w', waited L (now w) timeout w w' ∧ ∃ n, rejects env n = Some e) w.
Proof.
  intros Hfuel. unfold waitForLazyLoad. apply wp_bind, wp_dateNow.
  apply waitForLazyLoad_loop_spec; [lia|lia|done].
Qed.

Lemma stableSince_same m : pendingNetworkRequests m = 0 → stableSince m m = true.
Proof. intros Hm. unfold stableSince. by rewrite !Z.eqb_refl, Hm. Qed.



Lemma intelligentScroll_loop_spec fuel :
  ∀ waitFuel startTime maxTimeoutMs step stabilityTimeoutMs last counter w,
    startTime ≤ now w →
    startTime + maxTimeoutMs - now w ≤ 100 * Z.of_nat fuel →
    stabilityTimeoutMs ≤ 100 * Z.of_nat waitFuel →
    countsHeight last counter w →
    wp (intelligentScroll_loop env fuel waitFuel startTime maxTimeoutMs step
          stabilityTimeoutMs last counter)
       (λ _ w', scrolled L startTime maxTimeoutMs stabilityTimeoutMs w w' ∧
                (bottomSeen (history w') ∨ heightSettled (history w') ∨
                 maxTimeoutMs ≤ now w' - startTime))
       (λ e w', scrolled L startTime maxTimeoutMs stabilityTimeoutMs w w' ∧
                ∃ n, rejects env n = Some e) w.
Proof.
  induction fuel as [|fuel IH];
    intros waitFuel startTime maxT step stT last counter w
           Hstart Hfuel Hwait [Hcounter [rest Hseen]];
    cbn [intelligentScroll_loop]; apply wp_bind, wp_dateNow;
    pose proof (latency_bound 0%nat) as HL;
    (destruct (Z.ltb_spec (now w - startTime) maxT) as [Hlt|Hge];
     [|apply wp_ret; unfold scrolled; split; [lia | right; right; lia]]).
  - lia.
  - apply wp_bind, wp_getScrollMetrics.
    { intros e He. unfold scrolled. world_simpl. latencies.
      split; [lia|eauto]. }
    intros Hok.
    set (m := mkScrollMetrics _ _ _).
    set (w1 := record (SawScroll m) _).
    assert (Hseen1 : heightsSeen (history w1)
                     = documentHeight m :: heightsSeen (history w)) by done.
    destruct (Z.leb_spec (documentHeight m) (scrollTop m + viewportHeight m))
      as [Hbottom|_].
    { apply wp_ret. unfold scrolled. subst w1. world_simpl. latencies.
      split; [lia|]. left. by exists m, (scrollsSeen (history w)). }
    assert (Hrec : ∀ last' counter',
      countsHeight last' counter' w1 →
      wp (bind (scrollBy env step) (λ _,
          bind (waitForLazyLoad env waitFuel stT) (λ _,
          bind (sleep env 100) (λ _,
            intelligentScroll_loop env fuel waitFuel startTime maxT step stT
              last' counter'))))
         (λ _ w', scrolled L startTime maxT stT w w' ∧
                  (bottomSeen (history w') ∨ heightSettled (history w') ∨
                   maxT ≤ now w' - startTime))
         (λ e w', scrolled L startTime maxT stT w w' ∧
                  ∃ n, rejects env n = Some e) w1).
    { intros last' counter' [Hc' [rest' Hseen']].
      apply wp_bind, wp_scrollBy.
      { intros e He. unfold scrolled. subst w1. world_simpl. latencies.
        split; [lia|eauto]. }
      intros Hok2. apply wp_bind.
      eapply wp_mono; [| |by apply waitForLazyLoad_spec].
      2:{ intros e w3 [(? & ? & ? & ? & ?) Hrej]. split; [|done].
          unfold scrolled. subst w1. world_simpl. latencies. lia. }
      intros _ w3 [(Hlo & Hhi & Haw & Hsc & Hss) _].
      apply wp_bind, wp_sleep.
      subst w1. world_simpl. latencies.
      eapply wp_mono; [| |apply IH].
      - intros _ w' [[? ?] Hexit]. split; [|done].
        unfold scrolled. world_simpl. lia.
      - intros e w' [[? ?] Hrej]. split; [|done].
        unfold scrolled. world_simpl. lia.
      - world_simpl. lia.
      - world_simpl. lia.
      - done.
      - split; [done|]. exists rest'. unfold heightsSeen in *.
        world_simpl. rewrite Hss. exact Hseen'. }
    destruct (Z.eqb_spec (documentHeight m) last) as [Hsame|Hchanged].
    + destruct (Z.leb_spec STABILITY_THRESHOLD (counter + 1)) as [Hthree|Hfew].
      * apply wp_ret. unfold scrolled. split.
        { subst w1. world_simpl. latencies. lia. }
        right. left. unfold heightSettled. rewrite Hseen1, Hseen, Hsame.
        unfold STABILITY_THRESHOLD in Hthree.
        destruct (Z.to_nat counter) as [|[|n]] eqn:Hn; [lia..|].
        simpl. eauto.
      * apply Hrec. split; [lia|]. exists rest.
        rewrite Hseen1, Hseen, Hsame.
        replace (Z.to_nat (counter + 1)) with (S (Z.to_nat counter)) by lia.
        done.
    + apply Hrec. split; [lia|]. by exists (heightsSeen (history w1)).
Qed.

(** The whole of [intelligentScroll]: it ends, within the overall budget plus
    one stability budget plus the fixed pauses; when it returns the page is
    back at the top and has rested for the settle delay, and the loop was
    left at the bottom, on a settled height, or by the clock. *)
Lemma intelligentScroll_spec fuel options w :
  let maxTimeoutMs := default 30000 (maxTimeout options) in
  let stabilityTimeoutMs := default 5000 (stabilityTimeout options) in
  let bound := Z.max 0 maxTimeoutMs + Z.max 0 stabilityTimeoutMs
               + 900 + 9 * L in
  maxTimeoutMs ≤ 100 * Z.of_nat fuel →
  stabilityTimeoutMs ≤ 100 * Z.of_nat fuel →
  wp (intelligentScroll env fuel options)
     (λ _ w', now w' - now w ≤ bound ∧
              scrollY w' = 0 ∧
              (∃ t rest, history w' = (t, ScrolledTo 0) :: rest ∧
                         t + 500 ≤ now w') ∧
              (bottomSeen (history w') ∨ heightSettled (history w') ∨
               maxTimeoutMs + 500 ≤ now w' - now w))
     (λ e w', now w' - now w ≤ bound ∧ ∃ n, rejects env n = Some e) w.
Proof.
  intros maxT stT bound HmaxT HstT. subst bound.
  pose proof (latency_bound 0%nat) as HL.
  unfold intelligentScroll. fold maxT stT.
  apply wp_bind, wp_dateNow. apply wp_bind.
  eapply wp_mono; [| |apply intelligentScroll_loop_spec with (last := 0) (counter := 0)];
    [| |lia|lia|exact HstT|].
  3:{ split; [lia|]. by exists (heightsSeen (history w)). }
  2:{ intros e w2 [[? ?] Hrej]. split; [lia|done]. }
  intros _ w2 [[Hlo Hhi] Hexit].
  apply wp_bind, wp_scrollToTop.
  { intros e He. world_simpl. latencies. split; [lia|eauto]. }
  intros _. apply wp_sleep. world_simpl. latencies.
  split; [lia|]. split; [done|]. split.
  { eexists _, _. split; [done|]. lia. }
  destruct Hexit as [Hbottom|[Hsettled|Hclock]].
  - by left.
  - right. by left.
  - right. right. lia.
Qed.

End ScrollingFacts.

(** C3, as the code has it. For every page and every latency below [L],
    [intelligentScroll] ends once the budget of the model covers the two
    timeouts; its running time is at most the overall timeout plus one
    stability budget plus 900 ms of fixed pauses (plus nine latencies); and
    when it returns, the loop was left because the bottom was in view, or
    because the document height was the same at three looks in a row, or
    because the overall timeout had passed. *)
Theorem intelligentScroll_terminates
    (env : Scrolling.Env) (L : Z) (options : Scrolling.ScrollOptions)
    (fuel : nat) (w : Scrolling.World) :
  let maxTimeoutMs := default 30000%Z (Scrolling.maxTimeout options) in
  let stabilityTimeoutMs :=
    default 5000%Z (Scrolling.stabilityTimeout options) in
  let bound := (Z.max 0 maxTimeoutMs + Z.max 0 stabilityTimeoutMs
                + 900 + 9 * L)%Z in
  (∀ n, 0 ≤ Scrolling.latency env n ≤ L)%Z →
  (maxTimeoutMs ≤ 100 * Z.of_nat fuel)%Z →
  (stabilityTimeoutMs ≤ 100 * Z.of_nat fuel)%Z →
  match Scrolling.intelligentScroll env fuel options w with
  | Scrolling.Returned _ w' =>
      (Scrolling.now w' - Scrolling.now w ≤ bound)%Z ∧
      (Scrolling.bottomSeen (Scrolling.history w') ∨
       Scrolling.heightSettled (Scrolling.history w') ∨
       (maxTimeoutMs + 500 ≤ Scrolling.now w' - Scrolling.now w)%Z)
  | Scrolling.Threw e w' =>
      (Scrolling.now w' - Scrolling.now w ≤ bound)%Z ∧
      ∃ n, Scrolling.rejects env n = Some e
  | Scrolling.OutOfFuel => False
  end.
Proof.
  intros maxT stT bound Hlat HmaxT HstT.
  pose proof (intelligentScroll_spec env L Hlat fuel options w HmaxT HstT)
    as Hspec.
  unfold Scrolling.wp in Hspec.
  destruct (Scrolling.intelligentScroll env fuel options w); [|done..].
  destruct Hspec as (? & _ & _ & ?). done.
Qed.

Lemma intelligentScroll_terminates_witness :
  match Scrolling.intelligentScroll Scrolling.growingPage 50
          Scrolling.fourSeconds Scrolling.startWorld with
  | Scrolling.Returned _ w' =>
      (Scrolling.now w' - 0 ≤ Z.max 0 4000 + Z.max 0 400 + 900 + 9 * 0)%Z ∧
      (Scrolling.bottomSeen (Scrolling.history w') ∨
       Scrolling.heightSettled (Scrolling.history w') ∨
       (4000 + 500 ≤ Scrolling.now w' - 0)%Z)
  | Scrolling.Threw e w' =>
      (Scrolling.now w' - 0 ≤ Z.max 0 4000 + Z.max 0 400 + 900 + 9 * 0)%Z ∧
      ∃ n, Scrolling.rejects Scrolling.growingPage n = Some e
  | Scrolling.OutOfFuel => False
  end.
Proof.
  apply (intelligentScroll_terminates Scrolling.growingPage 0
           Scrolling.fourSeconds 50 Scrolling.startWorld).
  - intros n. simpl. lia.
  - simpl. lia.
  - simpl. lia.
Defined.

(** C3 as stated fails: on a page that keeps growing, with an overall timeout
    of 4000 ms and a stability budget of 400 ms and no latency at all, the
    scroller returns after 4500 ms, later than the timeout plus one stability
    budget. *)
Lemma intelligentScroll_exceeds_stated_bound :
  ∃ w', Scrolling.intelligentScroll Scrolling.growingPage 50
          Scrolling.fourSeconds Scrolling.startWorld
        = Scrolling.Returned tt w' ∧
        Scrolling.now w' = 4500%Z ∧
        ¬ (Scrolling.now w' - Scrolling.now Scrolling.startWorld
           ≤ 4000 + 400)%Z.
Proof. eexists. split; [vm_compute; reflexivity|]. split; [reflexivity|]. simpl. lia. Qed.

(** C9. Whenever [intelligentScroll] returns, whichever way its loop was
    left, the scroll offset is 0, the last thing done to the page was the
    scroll to the top, and at least 500 ms have passed since; and it does
    return, unless a page evaluation rejects. *)
Theorem intelligentScroll_returns_to_top
    (env : Scrolling.Env) (L : Z) (options : Scrolling.ScrollOptions)
    (fuel : nat) (w : Scrolling.World) :
  (∀ n, 0 ≤ Scrolling.latency env n ≤ L)%Z →
  (default 30000 (Scrolling.maxTimeout options) ≤ 100 * Z.of_nat fuel)%Z →
  (default 5000 (Scrolling.stabilityTimeout options) ≤ 100 * Z.of_nat fuel)%Z →
  match Scrolling.intelligentScroll env fuel options w with
  | Scrolling.Returned _ w' =>
      Scrolling.scrollY w' = 0%Z ∧
      ∃ t rest, Scrolling.history w' = (t, Scrolling.ScrolledTo 0) :: rest ∧
                (t + 500 ≤ Scrolling.now w')%Z
  | Scrolling.Threw e _ => ∃ n, Scrolling.rejects env n = Some e
  | Scrolling.OutOfFuel => False
  end.
Proof.
  intros Hlat HmaxT HstT.
  pose proof (intelligentScroll_spec env L Hlat fuel options w HmaxT HstT)
    as Hspec.
  unfold Scrolling.wp in Hspec.
  destruct (Scrolling.intelligentScroll env fuel options w); [|tauto|done].
  destruct Hspec as (_ & ? & ? & _). done.
Qed.

Lemma intelligentScroll_returns_to_top_witness :
  match Scrolling.intelligentScroll Scrolling.quietPage 50
          Scrolling.fourSeconds Scrolling.startWorld with
  | Scrolling.Returned _ w' =>
      Scrolling.scrollY w' = 0%Z ∧
      ∃ t rest, Scrolling.history w' = (t, Scrolling.ScrolledTo 0) :: rest ∧
                (t + 500 ≤ Scrolling.now w')%Z
  | Scrolling.Threw e _ => ∃ n, Scrolling.rejects Scrolling.quietPage n = Some e
  | Scrolling.OutOfFuel => False
  end.
Proof.
  apply (intelligentScroll_returns_to_top Scrolling.quietPage 0
           Scrolling.fourSeconds 50 Scrolling.startWorld).
  - intros n. simpl. lia.
  - simpl. lia.
  - simpl. lia.
Defined.

(** The three ways out of the loop, each ending at the top: the bottom in
    view at the first look, the height unchanged at three looks in a row,
    and the clock. *)
Example scroll_exit_at_bottom :
  ∃ w', Scrolling.intelligentScroll Scrolling.shortPage 50
          Scrolling.fourSeconds Scrolling.startWorld
        = Scrolling.Returned tt w' ∧
        Scrolling.now w' = 500%Z ∧ Scrolling.scrollY w' = 0%Z ∧
        Scrolling.heightsSeen (Scrolling.history w') = [800%Z].
Proof. eexists. split; [vm_compute; reflexivity|]. done. Qed.

Example scroll_exit_on_settled_height :
  ∃ w', Scrolling.intelligentScroll Scrolling.quietPage 50
          Scrolling.fourSeconds Scrolling.startWorld
        = Scrolling.Returned tt w' ∧
        Scrolling.now w' = 1700%Z ∧ Scrolling.scrollY w' = 0%Z ∧
        Scrolling.heightsSeen (Scrolling.history w')
        = [5000; 5000; 5000; 5000]%Z.
Proof. eexists. split; [vm_compute; reflexivity|]. done. Qed.

Example scroll_exit_by_clock :
  ∃ w', Scrolling.intelligentScroll Scrolling.growingPage 50
          Scrolling.fourSeconds Scrolling.startWorld
        = Scrolling.Returned tt w' ∧
        Scrolling.now w' = 4500%Z ∧ Scrolling.scrollY w' = 0%Z ∧
        length (Scrolling.heightsSeen (Scrolling.history w')) = 8.
Proof. eexists. split; [vm_compute; reflexivity|]. done. Qed.



(** On a page that changes once and then stays as it is, the baseline of the
    tentative check moves on with the rounds: the wait returns at 400 ms. On
    a page that never changes it returns at 300 ms. *)
Example waitForLazyLoad_follows_the_page :
  (∃ w', Scrolling.waitForLazyLoad Scrolling.settlingPage 50 2000
           Scrolling.startWorld
         = Scrolling.Returned tt w' ∧ Scrolling.now w' = 400%Z ∧
         Scrolling.lazySamples (Scrolling.history w') = 4%nat) ∧
  (∃ w', Scrolling.waitForLazyLoad Scrolling.quietPage 50 2000
           Scrolling.startWorld
         = Scrolling.Returned tt w' ∧ Scrolling.now w' = 300%Z ∧
         Scrolling.lazySamples (Scrolling.history w') = 3%nat).
Proof. split; eexists; (split; [vm_compute; reflexivity|]); done. Qed.


Section ServiceFacts.

Import Service.

Lemma close_last_page (ps : list PageStatus) :
  <[length ps := Closed]> (ps ++ [Open]) = ps ++ [Closed].
Proof. induction ps as [|p ps IH]; simpl; [done|]. by rewrite IH. Qed.

Variable env : Env.

Ltac settle st :=
  destruct (fails env st) eqn:?; simpl;
  rewrite ?close_last_page, ?app_nil_r; [done|].

(** The page handle of a capture, step by step. With the browser launched, a
    capture runs the steps of its pipeline until the first one that rejects
    and surfaces that rejection unchanged. The only [page.close()] is the last
    step of [captureScreenshot], before the optional file write: it is
    reached when every step before it succeeded, and after any rejection
    between page creation and the close the handle is still open. *)
Theorem takeScreenshot_page_lifecycle (options : ScreenshotOptions)
    (s : Server) :
  browserLaunched s = true →
  let out := takeScreenshot env options s in
  match firstFailure env (pipeline options s) with
  | None =>
      out.1 = Fulfilled (render env (screenshotParams options)) ∧
      pages out.2 = pages s ++ [Closed]
  | Some (NewPage, reason) =>
      out.1 = Rejected reason ∧ pages out.2 = pages s
  | Some (WriteFile, reason) =>
      out.1 = Rejected reason ∧ pages out.2 = pages s ++ [Closed]
  | Some (_, reason) =>
      out.1 = Rejected reason ∧ pages out.2 = pages s ++ [Open]
  end.
Proof.
  intros Hbrowser out. subst out.
  unfold takeScreenshot, pipeline, bind, when at 1.
  rewrite Hbrowser. simpl. rewrite Hbrowser. simpl.
  unfold tryCatch, setupPage, navigateAndPrepare, blockChatWidgets,
    captureScreenshot, pageScreenshot, closePage, writeFile, newPage,
    bind, when, step, modify, ret, throw.
  settle NewPage. settle SetViewport.
  destruct (blockerLoaded s); simpl; [settle EnableBlocking|];
    (settle SetRequestInterception; settle SuppressWidgets; settle Goto;
     settle HandleStickyElements;
     destruct (fullPage options) as [[]|]; simpl;
     [settle GetScrollMetrics; settle IntelligentScroll;
      settle WaitForLazyLoad| |];
     (settle Screenshot; settle RestoreStickyElements; settle ClosePage;
      destruct (outputPath options) as [path|]; simpl; [|done];
      destruct (String.eqb path ""); simpl; [done|];
      settle WriteFile; done)).
Qed.

Ltac run_capture :=
  unfold takeScreenshot, initialize, tryCatch, setupPage, navigateAndPrepare,
    blockChatWidgets, captureScreenshot, pageScreenshot, closePage, writeFile,
    newPage, bind, when, step, modify, ret, throw.

(** The only file a capture writes is its image, at the output path it was
    given, and only when it succeeded. *)
Lemma takeScreenshot_files (options : ScreenshotOptions) (s : Server) :
  let out := takeScreenshot env options s in
  files out.2 =
  files s ++
  match out.1, outputPath options with
  | Fulfilled screenshot, Some path =>
      if Js.truthy (Some path) then [(path, screenshot)] else []
  | _, _ => []
  end.
Proof.
  intros out. subst out. run_capture.
  destruct (browserLaunched s) eqn:Hbrowser; simpl.
  - rewrite Hbrowser. simpl.
    settle NewPage. settle SetViewport.
    destruct (blockerLoaded s); simpl; [settle EnableBlocking|];
      (settle SetRequestInterception; settle SuppressWidgets; settle Goto;
       settle HandleStickyElements;
       destruct (fullPage options) as [[]|]; simpl;
       [settle GetScrollMetrics; settle IntelligentScroll;
        settle WaitForLazyLoad| |];
       (settle Screenshot; settle RestoreStickyElements; settle ClosePage;
        destruct (outputPath options) as [path|]; simpl;
        [|by rewrite app_nil_r];
        destruct (String.eqb path ""); simpl; [by rewrite app_nil_r|];
        settle WriteFile; done)).
  - settle LoadBlocker. settle LaunchBrowser.
    settle NewPage. settle SetViewport. settle EnableBlocking.
    settle SetRequestInterception. settle SuppressWidgets. settle Goto.
    settle HandleStickyElements.
    destruct (fullPage options) as [[]|]; simpl;
      [settle GetScrollMetrics; settle IntelligentScroll;
       settle WaitForLazyLoad| |];
      (settle Screenshot; settle RestoreStickyElements; settle ClosePage;
       destruct (outputPath options) as [path|]; simpl;
       [|by rewrite app_nil_r];
       destruct (String.eqb path ""); simpl; [by rewrite app_nil_r|];
       settle WriteFile; done).
Qed.

Lemma takeScreenshot_writes_nothing (options : ScreenshotOptions) (s : Server) :
  outputPath options = None →
  files (takeScreenshot env options s).2 = files s.
Proof.
  intros Hpath. rewrite takeScreenshot_files, Hpath.
  destruct (takeScreenshot env options s).1; by rewrite app_nil_r.
Qed.

(** A request for the lossless format gets the same [page.screenshot]
    argument whatever its quality. *)
Lemma screenshotParams_png (options : ScreenshotOptions) (q : option Z) :
  format options = Some Png →
  screenshotParams (withQuality q options) = screenshotParams options.
Proof. intros Hpng. unfold screenshotParams. simpl. by rewrite Hpng. Qed.

Lemma takeScreenshot_png_quality (options : ScreenshotOptions) (q : option Z)
    (s : Server) :
  format options = Some Png →
  takeScreenshot env (withQuality q options) s = takeScreenshot env options s.
Proof.
  intros Hpng. unfold takeScreenshot, captureScreenshot.
  by rewrite (screenshotParams_png options q Hpng).
Qed.

(** The only [page.screenshot] call of a capture carries the parameters
    computed from its options. *)
Lemma takeScreenshot_shots (options : ScreenshotOptions) (s : Server) :
  let out := takeScreenshot env options s in
  shots out.2 = shots s ∨
  ∃ page, shots out.2 = shots s ++ [(page, screenshotParams options)].
Proof.
  intros out. subst out. run_capture.
  destruct (browserLaunched s) eqn:Hbrowser; simpl.
  - rewrite Hbrowser. simpl.
    destruct (fails env NewPage); simpl; [by left|].
    destruct (fails env SetViewport); simpl; [by left|].
    destruct (blockerLoaded s); simpl;
      [destruct (fails env EnableBlocking); simpl; [by left|]|];
      (destruct (fails env SetRequestInterception); simpl; [by left|];
       destruct (fails env SuppressWidgets); simpl; [by left|];
       destruct (fails env Goto); simpl; [by left|];
       destruct (fails env HandleStickyElements); simpl; [by left|];
       destruct (fullPage options) as [[]|]; simpl;
       [destruct (fails env GetScrollMetrics); simpl; [by left|];
        destruct (fails env IntelligentScroll); simpl; [by left|];
        destruct (fails env WaitForLazyLoad); simpl; [by left|]| |];
       (destruct (fails env Screenshot); simpl; [by left|];
        right; eexists;
        destruct (fails env RestoreStickyElements); simpl; [done|];
        destruct (fails env ClosePage); simpl; [done|];
        destruct (outputPath options) as [path|]; simpl; [|done];
        destruct (String.eqb path ""); simpl; [done|];
        destruct (fails env WriteFile); done)).
  - destruct (fails env LoadBlocker); simpl; [by left|].
    destruct (fails env LaunchBrowser); simpl; [by left|].
    destruct (fails env NewPage); simpl; [by left|].
    destruct (fails env SetViewport); simpl; [by left|].
    destruct (fails env EnableBlocking); simpl; [by left|].
    destruct (fails env SetRequestInterception); simpl; [by left|].
    destruct (fails env SuppressWidgets); simpl; [by left|].
    destruct (fails env Goto); simpl; [by left|].
    destruct (fails env HandleStickyElements); simpl; [by left|].
    destruct (fullPage options) as [[]|]; simpl;
      [destruct (fails env GetScrollMetrics); simpl; [by left|];
       destruct (fails env IntelligentScroll); simpl; [by left|];
       destruct (fails env WaitForLazyLoad); simpl; [by left|]| |];
      (destruct (fails env Screenshot); simpl; [by left|];
       right; eexists;
       destruct (fails env RestoreStickyElements); simpl; [done|];
       destruct (fails env ClosePage); simpl; [done|];
       destruct (outputPath options) as [path|]; simpl; [|done];
       destruct (String.eqb path ""); simpl; [done|];
       destruct (fails env WriteFile); done).
Qed.

End ServiceFacts.

Lemma allSettled_length {A} (tasks : list (Service.Task A)) (s : Service.Server) :
  length (Service.allSettled tasks s).1 = length tasks.
Proof.
  revert s. induction tasks as [|t tasks IH]; intros s; simpl; [done|].
  destruct (t s) as [r s1]. specialize (IH s1).
  destruct (Service.allSettled tasks s1). simpl in *. by rewrite IH.
Qed.

(** Every task of the list is run, and its outcome sits at its position. *)
Lemma allSettled_lookup {A} (tasks : list (Service.Task A)) (s : Service.Server)
    (i : nat) (t : Service.Task A) :
  tasks !! i = Some t →
  ∃ si, (Service.allSettled tasks s).1 !! i = Some (t si).1.
Proof.
  revert s i. induction tasks as [|t0 tasks IH]; intros s i Hi; [done|].
  simpl. destruct (t0 s) as [r s1] eqn:Ht0.
  destruct (Service.allSettled tasks s1) as [rs s2] eqn:Hrest.
  destruct i as [|i]; simpl in *.
  - injection Hi as <-. exists s. by rewrite Ht0.
  - destruct (IH s1 i Hi) as [si Hsi]. exists si. by rewrite Hrest in Hsi.
Qed.

Lemma allSettled_files {A} (tasks : list (Service.Task A)) (s : Service.Server) :
  (∀ t, t ∈ tasks → ∀ s0, Service.files (t s0).2 = Service.files s0) →
  Service.files (Service.allSettled tasks s).2 = Service.files s.
Proof.
  revert s. induction tasks as [|t tasks IH]; intros s Hall; [done|].
  simpl. pose proof (Hall t (list_elem_of_here _ _) s) as Ht.
  destruct (t s) as [r s1]. simpl in Ht.
  assert (Hrest : Service.files (Service.allSettled tasks s1).2
                  = Service.files s1).
  { apply IH. intros t' Ht'. apply Hall. by right. }
  destruct (Service.allSettled tasks s1) as [rs s2]. simpl in *. congruence.
Qed.

(** A capture that meets no failure closes its page. *)
Lemma takeScreenshot_page_lifecycle_witness :
  (Service.takeScreenshot Service.reachable Service.exampleOptions
     Service.readyServer).1
  = Service.Fulfilled Service.jpegBytes ∧
  Service.pages
    (Service.takeScreenshot Service.reachable Service.exampleOptions
       Service.readyServer).2
  = [Service.Closed].
Proof.
  exact (takeScreenshot_page_lifecycle Service.reachable
           Service.exampleOptions Service.readyServer eq_refl).
Defined.

(** C1, at a failing input. The claim asks for the page to be closed on
    every path, and the flow chart of the README has a cleanup between the
    error handler and the rethrow; the catch block of [takeScreenshot] only
    logs and rethrows. When [page.goto] rejects, the error reaches the caller
    and the page created for the request is still open. *)
Lemma takeScreenshot_leaves_page_open :
  let out := Service.takeScreenshot Service.unreachable
               Service.exampleOptions Service.readyServer in
  out.1 = Service.Rejected Service.navigationError ∧
  Service.pages out.2 = [Service.Open] ∧
  Service.Closed ∉ Service.pages out.2.
Proof.
  repeat split. intros Hin. vm_compute in Hin.
  apply list_elem_of_singleton in Hin. discriminate Hin.
Qed.

(** C6. For a request whose format is png the quality has no effect: the
    [quality] handed to [page.screenshot] is absent, a request that differs
    only in quality gets the same parameters and the same capture, the only
    [page.screenshot] call made carries those parameters, and the HTTP
    handler answers a successful capture with content type image/png. *)
Theorem png_quality_ignored (env : Service.Env)
    (options : Service.ScreenshotOptions) (q : option Z) (s : Service.Server) :
  Service.format options = Some Service.Png →
  Service.paramQuality (Service.screenshotParams options) = None ∧
  Service.screenshotParams (Service.withQuality q options)
  = Service.screenshotParams options ∧
  Service.takeScreenshot env (Service.withQuality q options) s
  = Service.takeScreenshot env options s ∧
  (∀ call, call ∈ Service.shots (Service.takeScreenshot env options s).2 →
           call ∈ Service.shots s ∨ Service.paramQuality call.2 = None) ∧
  (∀ shot s',
     Service.takeScreenshot env (Service.withoutOutputPath options) s
     = (Service.Fulfilled shot, s') →
     Service.screenshotHandler env options s
     = (Service.ImageResponse "image/png" (length shot) shot, s')).
Proof.
  intros Hpng.
  assert (Hq : Service.paramQuality (Service.screenshotParams options) = None).
  { unfold Service.screenshotParams. simpl. by rewrite Hpng. }
  repeat split.
  - exact Hq.
  - by apply screenshotParams_png.
  - by apply takeScreenshot_png_quality.
  - intros call Hcall.
    destruct (takeScreenshot_shots env options s) as [Hsame|[page Hone]].
    + left. by rewrite <- Hsame.
    + rewrite Hone in Hcall. apply elem_of_app in Hcall as [Hold|Hnew].
      * by left.
      * right. apply list_elem_of_singleton in Hnew. by subst call.
  - intros shot s' Hrun. unfold Service.screenshotHandler.
    by rewrite Hrun, Hpng.
Qed.

Lemma png_quality_ignored_witness :
  Service.screenshotHandler Service.reachable
    (Service.pngOptions (Some 5%Z)) Service.readyServer
  = Service.screenshotHandler Service.reachable
      (Service.pngOptions (Some 95%Z)) Service.readyServer ∧
  Service.paramQuality
    (Service.screenshotParams (Service.pngOptions (Some 5%Z))) = None.
Proof.
  destruct (png_quality_ignored Service.reachable
              (Service.pngOptions (Some 5%Z)) (Some 95%Z)
              Service.readyServer eq_refl) as (Hq & _ & _ & _ & Hhttp).
  split; [|exact Hq].
  rewrite (Hhttp Service.pngBytes
             (Service.mkServer true true [Service.Closed]
                [(0, Service.mkParams true Service.Png None)] []));
    reflexivity.
Defined.

(** C7. The batch handler always answers with the array of per-URL results:
    as many entries as URLs, in the order of the request; the entry of a URL
    carries that URL and the outcome of its own capture, with the image in
    base64 when the capture was fulfilled and the error message when it was
    rejected. *)
Theorem batchHandler_per_url_results (envs : nat → Service.Env)
    (urls : list Service.ScreenshotOptions) (s : Service.Server) :
  ∃ entries,
    (Service.batchHandler envs urls s).1 = Service.JsonResults entries ∧
    length entries = length urls ∧
    ∀ i options, urls !! i = Some options →
      ∃ si, entries !! i =
        Some
          match (Service.takeScreenshot (envs i)
                   (Service.withoutOutputPath options) si).1 with
          | Service.Fulfilled value =>
              Service.mkEntry (Service.url options) true
                              (Some (Js.toBase64 value)) None
          | Service.Rejected reason =>
              Service.mkEntry (Service.url options) false None (Some reason)
          end.
Proof.
  unfold Service.batchHandler.
  set (tasks := imap (λ i options,
                  Service.takeScreenshot (envs i)
                    (Service.withoutOutputPath options)) urls).
  pose proof (allSettled_length tasks s) as Hlen.
  assert (Hlook : ∀ i t, tasks !! i = Some t →
            ∃ si, (Service.allSettled tasks s).1 !! i = Some (t si).1)
    by (intros i t; apply allSettled_lookup).
  destruct (Service.allSettled tasks s) as [results s']. simpl in *.
  exists (imap (Service.batchEntry urls) results). split; [done|]. split.
  { rewrite length_imap, Hlen. subst tasks. by rewrite length_imap. }
  intros i options Hi.
  destruct (Hlook i (Service.takeScreenshot (envs i)
                       (Service.withoutOutputPath options))) as [si Hsi].
  { subst tasks. by rewrite list_lookup_imap, Hi. }
  exists si. rewrite list_lookup_imap, Hsi. simpl.
  unfold Service.batchEntry. rewrite Hi.
  by destruct (Service.takeScreenshot _ _ si).1.
Qed.

Lemma batchHandler_per_url_results_witness :
  ∃ entries,
    (Service.batchHandler
       (λ i, match i with 1 => Service.unreachable | _ => Service.reachable end)
       [Service.fileOptions; Service.unreachableOptions]
       Service.readyServer).1
    = Service.JsonResults entries ∧
    length entries = 2.
Proof.
  destruct (batchHandler_per_url_results
              (λ i, match i with
                    | 1 => Service.unreachable
                    | _ => Service.reachable
                    end)
              [Service.fileOptions; Service.unreachableOptions]
              Service.readyServer) as (entries & Hrun & Hlen & _).
  exists entries. split; [exact Hrun | exact Hlen].
Defined.

(** The batch of the specification: two URLs, the second unreachable. *)
Example batch_with_one_unreachable :
  (Service.batchHandler
     (λ i, match i with 1 => Service.unreachable | _ => Service.reachable end)
     [Service.fileOptions; Service.unreachableOptions]
     Service.readyServer).1
  = Service.JsonResults
      [ Service.mkEntry "https://example.com" true (Some "/9j/4A==") None;
        Service.mkEntry "https://unreachable.invalid" false None
                        (Some Service.navigationError) ].
Proof. reflexivity. Qed.

(** C10. Both HTTP handlers hand [takeScreenshot] options whose output path
    is undefined, whatever the body holds, and so leave the files of the
    server as they were; a file is written only by a capture called with an
    output path of its own. *)
Theorem http_never_writes_files (env : Service.Env) (envs : nat → Service.Env)
    (body : Service.ScreenshotOptions)
    (urls : list Service.ScreenshotOptions) (s : Service.Server) :
  Service.outputPath (Service.withoutOutputPath body) = None ∧
  Service.files (Service.screenshotHandler env body s).2 = Service.files s ∧
  Service.files (Service.batchHandler envs urls s).2 = Service.files s ∧
  (∀ options shot s',
     Service.takeScreenshot env options s = (Service.Fulfilled shot, s') →
     Service.files s' ≠ Service.files s →
     ∃ path, Service.outputPath options = Some path ∧
             Service.files s' = Service.files s ++ [(path, shot)]).
Proof.
  repeat split.
  - unfold Service.screenshotHandler.
    pose proof (takeScreenshot_writes_nothing env
                  (Service.withoutOutputPath body) s eq_refl) as Hfiles.
    by destruct (Service.takeScreenshot env _ s) as [[shot|msg] s'].
  - unfold Service.batchHandler.
    set (tasks := imap _ urls).
    assert (Hfiles : Service.files (Service.allSettled tasks s).2
                     = Service.files s).
    { apply allSettled_files. intros t Ht s0. subst tasks.
      apply list_elem_of_lookup in Ht as [i Hi].
      rewrite list_lookup_imap in Hi.
      destruct (urls !! i) as [options|]; [|done]. injection Hi as <-.
      by apply takeScreenshot_writes_nothing. }
    by destruct (Service.allSettled tasks s).
  - intros options shot s' Hrun Hchanged.
    pose proof (takeScreenshot_files env options s) as Hfiles.
    rewrite Hrun in Hfiles. simpl in Hfiles.
    destruct (Service.outputPath options) as [path|].
    + exists path. split; [done|].
      destruct (negb (String.eqb path "")); [done|].
      rewrite app_nil_r in Hfiles. done.
    + rewrite app_nil_r in Hfiles. done.
Qed.

Lemma http_never_writes_files_witness :
  Service.files
    (Service.screenshotHandler Service.reachable Service.fileOptions
       Service.readyServer).2 = [] ∧
  ∃ path,
    Service.outputPath Service.fileOptions = Some path ∧
    Service.files
      (Service.takeScreenshot Service.reachable Service.fileOptions
         Service.readyServer).2
    = [] ++ [(path, Service.jpegBytes)].
Proof.
  destruct (http_never_writes_files Service.reachable (λ _, Service.reachable)
              Service.fileOptions [] Service.readyServer)
    as (_ & Hsingle & _ & Hdirect).
  split; [exact Hsingle|].
  apply (Hdirect Service.fileOptions Service.jpegBytes
           (Service.takeScreenshot Service.reachable Service.fileOptions
              Service.readyServer).2).
  - reflexivity.
  - discriminate.
Defined.

(** ** Further properties of the overlay neutralizer *)

Section NeutralizerFootprint.

Import Neutralizer.

Variable computedPosition : list Element → nat → string.
Variable setProperty : string → string → string → string → string.

Lemma modifyStep_length st i :
  length (modifyStep computedPosition setProperty st i).1 = length st.1.
Proof.
  destruct st as [d acc]. simpl. destruct (d !! i); [|done].
  destruct (isFixedOrSticky computedPosition d i); [|done].
  simpl. by rewrite length_insert.
Qed.

Lemma modifyLoop_length xs st :
  length (fold_left (modifyStep computedPosition setProperty) xs st).1
  = length st.1.
Proof.
  revert st. induction xs as [|x xs IH]; intros st; [done|].
  simpl. by rewrite IH, modifyStep_length.
Qed.

(** What [handleStickyElements] touches: the slot is always set, no element
    is recorded twice, the document keeps its elements, an element that is
    not recorded is left exactly as it was, and a recorded one keeps its tag
    name and role. *)
Theorem handleStickyElements_footprint (p : Page) :
  let p1 := handleStickyElements computedPosition setProperty p in
  ∃ rs, originalStickyStyles p1 = Some rs ∧
    NoDup (element <$> rs) ∧
    length (dom p1) = length (dom p) ∧
    (∀ i, i ∉ element <$> rs → dom p1 !! i = dom p !! i) ∧
    (∀ i e1, dom p1 !! i = Some e1 →
       ∃ e, dom p !! i = Some e ∧ tagName e1 = tagName e ∧
            roleAttr e1 = roleAttr e).
Proof.
  intros p1. subst p1. unfold handleStickyElements.
  pose proof (modifyStickyElements_recorded computedPosition setProperty
                (dom p)) as Hrec.
  pose proof (modifyLoop_length
                (stickyElements computedPosition (dom p)) (dom p, [])) as Hlen.
  fold (modifyStickyElements computedPosition setProperty (dom p)) in Hlen.
  destruct (modifyStickyElements computedPosition setProperty (dom p))
    as [d acc].
  destruct Hrec as (Hnd & Hin & Hout). simpl in *.
  exists acc. repeat split; [done..|].
  intros i e1 He1.
  destruct (decide (i ∈ element <$> acc)) as [Hi|Hi].
  - apply list_elem_of_fmap in Hi as (r & -> & Hr).
    destruct (Hin r Hr) as (e0 & c & H0 & _ & Hd).
    rewrite Hd in He1. injection He1 as <-. by exists e0.
  - rewrite (Hout i Hi) in He1. by exists e1.
Qed.

Lemma modifyLoop_nothing_sticky xs d acc :
  (∀ i, isFixedOrSticky computedPosition d i = false) →
  fold_left (modifyStep computedPosition setProperty) xs (d, acc) = (d, acc).
Proof.
  intros Hnone. induction xs as [|x xs IH]; [done|].
  simpl. destruct (d !! x); [|done]. by rewrite Hnone.
Qed.

(** A second [handleStickyElements] on a page where the first one left
    nothing fixed or sticky replaces the saved records by an empty list, so
    that the restore after it changes nothing: the original styles are
    lost with the slot. *)
Theorem handleStickyElements_twice_forgets (p : Page) :
  let p1 := handleStickyElements computedPosition setProperty p in
  let p2 := handleStickyElements computedPosition setProperty p1 in
  (∀ i, isFixedOrSticky computedPosition (dom p1) i = false) →
  p2 = mkPage (dom p1) (Some []) ∧
  restoreStickyElements p2 = p2.
Proof.
  intros p1 p2 Hnone.
  assert (Hp2 : p2 = mkPage (dom p1) (Some [])).
  { subst p2. unfold handleStickyElements at 1, modifyStickyElements.
    by rewrite modifyLoop_nothing_sticky. }
  split; [done|]. by rewrite Hp2.
Qed.

End NeutralizerFootprint.

Lemma handleStickyElements_twice_forgets_witness :
  let p1 := Neutralizer.handleStickyElements Neutralizer.demoComputed
              Neutralizer.demoSetProperty Neutralizer.demoPage in
  let p2 := Neutralizer.handleStickyElements Neutralizer.demoComputed
              Neutralizer.demoSetProperty p1 in
  Neutralizer.dom (Neutralizer.restoreStickyElements p2) = Neutralizer.dom p1 ∧
  Neutralizer.dom p1 ≠ Neutralizer.dom Neutralizer.demoPage.
Proof.
  intros p1 p2.
  destruct (handleStickyElements_twice_forgets Neutralizer.demoComputed
              Neutralizer.demoSetProperty Neutralizer.demoPage) as [Hp2 Hkeep].
  - intros [|[|[|i]]]; reflexivity.
  - fold p1 in Hp2, Hkeep. fold p2 in Hp2, Hkeep. split.
    + rewrite Hkeep, Hp2. reflexivity.
    + discriminate.
Defined.

(** ** Further properties of the widget suppressor *)

Section PatternFacts.

Import Suppressor.

Local Arguments String.append : simpl nomatch.

Lemma startsWith_spec s p :
  Js.startsWith s p = true ↔ ∃ c, s = p +:+ c.
Proof.
  revert s. induction p as [|x p IH]; intros s; simpl.
  - split; [by exists s | done].
  - destruct s as [|y s]; [split; [done | by intros [c Hc]]|].
    rewrite andb_true_iff, IH. split.
    + intros [Hxy [c ->]]. apply Ascii.eqb_eq in Hxy as ->. by exists c.
    + intros [c [= -> ->]]. split; [apply Ascii.eqb_refl | by exists c].
Qed.

Lemma test_spec re s :
  test re s = true ↔ ∃ a t, s = a +:+ t ∧ matchHere re t = true.
Proof.
  induction s as [|y s IH]; simpl; rewrite orb_true_iff.
  - split.
    + intros [H|H]; [by exists "", "" | done].
    + intros (a & t & Hs & Ht). left.
      destruct a; [|done]. simpl in Hs. by subst t.
  - rewrite IH. split.
    + intros [H|(a & t & -> & Ht)]; [by exists "", (String y s)|].
      by exists (String y a), t.
    + intros (a & t & Hs & Ht). destruct a as [|x a]; simpl in Hs.
      * left. by subst t.
      * injection Hs as -> ->. right. by exists a, t.
Qed.

Lemma includes_spec s p :
  Js.includes s p = true ↔ ∃ a c, s = a +:+ p +:+ c.
Proof.
  rewrite <- test_literals, test_spec. split.
  - intros (a & t & -> & Ht). rewrite matchHere_literals in Ht.
    apply startsWith_spec in Ht as [c ->]. by exists a, c.
  - intros (a & c & ->). exists a, (p +:+ c). split; [done|].
    rewrite matchHere_literals. apply startsWith_spec. by exists c.
Qed.

Lemma matchHere_literals_app p re s :
  matchHere (literals p ++ re) s = true ↔
  ∃ t, s = p +:+ t ∧ matchHere re t = true.
Proof.
  revert s. induction p as [|x p IH]; intros s; simpl.
  - split; [by exists s | by intros (t & -> & Ht)].
  - destruct s as [|y s]; [split; [done | by intros (t & Ht & _)]|].
    rewrite andb_true_iff, IH. split.
    + intros [Hxy (t & -> & Ht)]. apply Ascii.eqb_eq in Hxy as ->.
      by exists t.
    + intros (t & [= -> ->] & Ht). split; [apply Ascii.eqb_refl | by exists t].
Qed.

Lemma matchHere_star re s :
  matchHere (AnyStar :: re) s = true ↔
  ∃ b t, s = b +:+ t ∧ noLineTerminator b = true ∧ matchHere re t = true.
Proof.
  induction s as [|y s IH].
  - simpl. rewrite orb_false_r. split.
    + intros H. by exists "", "".
    + intros (b & t & Hs & _ & Ht). destruct b; [|done].
      simpl in Hs. by subst t.
  - change (matchHere (AnyStar :: re) (String y s))
      with (matchHere re (String y s) ||
            negb (isLineTerminator y) && matchHere (AnyStar :: re) s).
    rewrite orb_true_iff, andb_true_iff, IH. split.
    + intros [H|[Hy (b & t & -> & Hb & Ht)]].
      * by exists "", (String y s).
      * exists (String y b), t. simpl. by rewrite Hy, Hb.
    + intros (b & t & Hs & Hb & Ht). destruct b as [|x b]; simpl in *.
      * left. by subst t.
      * injection Hs as -> ->. apply andb_true_iff in Hb as [Hx Hb].
        right. split; [done|]. by exists b, t.
Qed.

(** The two replacements and the compilation, on a pattern that begins with
    plain characters. *)
Lemma compile_plain_app p rest :
  plainPattern p = true →
  compile (regexPattern (p +:+ rest))
  = (literals p ++.) <$> compile (regexPattern rest).
Proof.
  unfold regexPattern. induction p as [|c p IH]; intros Hp.
  - simpl. by destruct (compile (expandStars (escapeDots rest))).
  - simpl in Hp. apply andb_true_iff in Hp as [Hc Hp]. specialize (IH Hp).
    simpl. destruct (Ascii.eqb_spec c ".") as [->|Hdot].
    + simpl. rewrite IH. by destruct (compile (expandStars (escapeDots rest))).
    + unfold isPlain in Hc. apply orb_true_iff in Hc as [Hc|Hc].
      { apply Ascii.eqb_eq in Hc. done. }
      apply negb_true_iff in Hc. pose proof Hc as Hsyn.
      unfold isSyntaxCharacter in Hc. simpl in Hc.
      repeat (apply orb_false_iff in Hc as [? Hc]).
      assert (Hstar : Ascii.eqb c "*" = false) by done.
      assert (Hback : Ascii.eqb c backslash = false) by done.
      assert (Hd : Ascii.eqb c "." = false) by done.
      simpl. rewrite Hstar. simpl. rewrite Hback, Hd, Hsyn, IH.
      by destruct (compile (expandStars (escapeDots rest))).
Qed.

Lemma compile_star rest :
  compile (regexPattern (String "*" rest))
  = cons AnyStar <$> compile (regexPattern rest).
Proof. done. Qed.

(** A pattern without a wildcard is a substring test: it matches exactly the
    URLs in which it occurs, its dots standing for dots only. *)
Theorem plain_pattern_is_substring (url p : string) :
  plainPattern p = true →
  (patternMatches url p = true ↔ ∃ a c, url = a +:+ p +:+ c).
Proof.
  intros Hp. rewrite (patternMatches_plain url p Hp). apply includes_spec.
Qed.

(** A pattern with one wildcard between two plain parts matches exactly the
    URLs in which the first part is followed, after any characters other
    than line terminators, by the second. *)
Theorem wildcard_pattern_matches (url p q : string) :
  plainPattern p = true → plainPattern q = true →
  (patternMatches url (p +:+ String "*" q) = true ↔
   ∃ a b c, url = a +:+ p +:+ b +:+ q +:+ c ∧ noLineTerminator b = true).
Proof.
  intros Hp Hq. unfold patternMatches.
  rewrite (compile_plain_app p _ Hp), compile_star, (compile_plain q Hq).
  simpl. rewrite test_spec. split.
  - intros (a & t & -> & Ht).
    apply matchHere_literals_app in Ht as (t1 & -> & Ht1).
    apply matchHere_star in Ht1 as (b & t2 & -> & Hb & Ht2).
    rewrite matchHere_literals in Ht2.
    apply startsWith_spec in Ht2 as [c ->]. by exists a, b, c.
  - intros (a & b & c & -> & Hb). exists a, (p +:+ b +:+ q +:+ c).
    split; [done|]. apply matchHere_literals_app.
    exists (b +:+ q +:+ c). split; [done|]. apply matchHere_star.
    exists b, (q +:+ c). split; [done|]. split; [done|].
    rewrite matchHere_literals. apply startsWith_spec. by exists c.
Qed.

Lemma star_then_test re s :
  matchHere (AnyStar :: re) s = true → test re s = true.
Proof.
  intros H. apply matchHere_star in H as (b & t & -> & _ & Ht).
  apply test_spec. by exists b, t.
Qed.

(** A wildcard at the head of a pattern made of plain characters, dots and
    wildcards changes nothing: the expression is not anchored, so a match may
    start anywhere as it is. *)
Theorem leading_wildcard_is_redundant (url p : string) :
  inFragment p = true →
  patternMatches url (String "*" p) = patternMatches url p.
Proof.
  unfold inFragment, patternMatches. rewrite compile_star.
  destruct (compile (regexPattern p)) as [re|]; simpl; [intros _|done].
  apply eq_true_iff_eq. rewrite !test_spec. split.
  - intros (a & t & -> & Ht).
    apply matchHere_star in Ht as (b & t2 & -> & _ & Ht2).
    exists (a +:+ b), t2. split; [|done].
    clear. induction a as [|x a IH]; simpl; [done|]. by rewrite IH.
  - intros (a & t & -> & Ht). exists a, t. split; [done|].
    apply matchHere_star. by exists "", t.
Qed.

(** The handler is silent on a request that is no longer pending: it leaves
    it as it is and writes no warning. On a pending request it warns once
    when the first call fails for another reason than the request being
    handled, and not at all when that call succeeds. *)
Theorem onRequest_warnings (f : Faults) (r : HTTPRequest) :
  (resolutions r ≠ [] → onRequest f r = (r, [])) ∧
  (resolutions r = [] → firstCall f = None → (onRequest f r).2 = []) ∧
  (∀ msg, resolutions r = [] → firstCall f = Some msg →
     Js.includes msg "Request is already handled" = false →
     (onRequest f r).2 = ["Request interception error: " +:+ msg]).
Proof.
  unfold onRequest, abort, continue. repeat split.
  - intros Hr. destruct (isBlocked _); by rewrite !resolveWith_handled.
  - intros Hr Hf. rewrite Hf.
    destruct (isBlocked _); by rewrite resolveWith_pending.
  - intros msg Hr Hf Hmsg. rewrite Hf.
    destruct (isBlocked _); rewrite resolveWith_fault by done; rewrite Hmsg;
      simpl; by destruct (resolveWith _ _ _).
Qed.

End PatternFacts.

Lemma plain_pattern_is_substring_witness :
  Suppressor.patternMatches "https://js.hs-scripts.com/123.js"
    "js.hs-scripts.com" = true.
Proof.
  apply (plain_pattern_is_substring "https://js.hs-scripts.com/123.js"
           "js.hs-scripts.com"); [reflexivity|].
  by exists "https://", "/123.js".
Defined.

Lemma wildcard_pattern_matches_witness :
  Suppressor.patternMatches
    "https://connect.facebook.com/en_us/customer_chat.js"
    "facebook.com/*/customer_chat" = true.
Proof.
  apply (wildcard_pattern_matches
           "https://connect.facebook.com/en_us/customer_chat.js"
           "facebook.com/" "/customer_chat"); [reflexivity..|].
  by exists "https://connect.", "en_us", ".js".
Defined.

Lemma leading_wildcard_is_redundant_witness :
  Suppressor.patternMatches "https://js.hubspot.net/web.js" "*.hubspot.net"
  = Suppressor.patternMatches "https://js.hubspot.net/web.js" ".hubspot.net".
Proof.
  apply (leading_wildcard_is_redundant "https://js.hubspot.net/web.js"
           ".hubspot.net").
  reflexivity.
Defined.

Lemma onRequest_warnings_witness :
  Suppressor.onRequest (Suppressor.mkFaults None None) Suppressor.racedRequest
  = (Suppressor.racedRequest, []).
Proof.
  apply (onRequest_warnings (Suppressor.mkFaults None None)
           Suppressor.racedRequest).
  discriminate.
Defined.

(** ** Further properties of the stability monitor and the scroller *)

Section ScrollingFootprint.

Import Scrolling.
Local Open Scope Z_scope.

Variable env : Env.

Lemma onlyLooked_refl w : onlyLooked w w.
Proof. split; [done|]. by exists []. Qed.

Lemma onlyLooked_trans w1 w2 w3 :
  onlyLooked w1 w2 → onlyLooked w2 w3 → onlyLooked w1 w3.
Proof.
  intros [Hy1 (a1 & Hh1 & Ha1)] [Hy2 (a2 & Hh2 & Ha2)]. split; [congruence|].
  exists (a2 ++ a1). split.
  - by rewrite Hh2, Hh1, app_assoc.
  - by apply Forall_app.
Qed.

Lemma ensures_bind {A B} (m : Async A) (k : A → Async B)
    (R : World → World → Prop) w :
  (∀ w1 w2 w3, R w1 w2 → R w2 w3 → R w1 w3) →
  ensures m (R w) (R w) w →
  (∀ a w1, ensures (k a) (R w1) (R w1) w1) →
  ensures (bind m k) (R w) (R w) w.
Proof.
  intros Htrans Hm Hk. unfold ensures, bind in *.
  destruct (m w) as [a w1|e w1|]; [|done..].
  specialize (Hk a w1). destruct (k a w1); [| |done]; by eapply Htrans.
Qed.

Lemma looked_sleep ms w :
  ensures (sleep env ms) (onlyLooked w) (onlyLooked w) w.
Proof. split; [done|]. by exists []. Qed.

Lemma looked_getLazyLoadMetrics w :
  ensures (getLazyLoadMetrics env) (onlyLooked w) (onlyLooked w) w.
Proof.
  unfold ensures, getLazyLoadMetrics, evaluate.
  destruct (rejects env (awaits w)).
  - split; [done|]. by exists [].
  - split; [done|]. eexists [_]. split; [done|]. by repeat constructor.
Qed.

Lemma looked_consoleWarn msg w :
  ensures (consoleWarn msg) (onlyLooked w) (onlyLooked w) w.
Proof.
  split; [done|]. eexists [_]. split; [done|]. by repeat constructor.
Qed.

Lemma waitForLazyLoad_loop_only_looks fuel :
  ∀ startTime timeout previous w,
    ensures (waitForLazyLoad_loop env fuel startTime timeout previous)
            (onlyLooked w) (onlyLooked w) w.
Proof.
  induction fuel as [|fuel IH]; intros startTime timeout previous w;
    cbn [waitForLazyLoad_loop];
    (apply ensures_bind; [apply onlyLooked_trans|apply onlyLooked_refl|]);
    intros t w1; destruct (t - startTime <? timeout);
    try apply looked_consoleWarn; [done|].
  assert (Hnext : ∀ current w2,
    ensures (bind (sleep env 100)
               (λ _, waitForLazyLoad_loop env fuel startTime timeout
                       (Some current)))
            (onlyLooked w2) (onlyLooked w2) w2).
  { intros current w2.
    apply ensures_bind; [apply onlyLooked_trans|apply looked_sleep|].
    intros _ w3. apply IH. }
  apply ensures_bind;
    [apply onlyLooked_trans|apply looked_getLazyLoadMetrics|].
  intros current w2. destruct previous as [previous|]; [|apply Hnext].
  destruct (stableSince previous current); [|apply Hnext].
  apply ensures_bind; [apply onlyLooked_trans|apply looked_sleep|].
  intros _ w3.
  apply ensures_bind;
    [apply onlyLooked_trans|apply looked_getLazyLoadMetrics|].
  intros finalCheck w4.
  destruct (stableSince current finalCheck); [apply onlyLooked_refl|].
  apply Hnext.
Qed.

Lemma waitForLazyLoad_looked (fuel : nat) (timeout : Z) (w : World) :
  ensures (waitForLazyLoad env fuel timeout) (onlyLooked w) (onlyLooked w) w.
Proof.
  unfold waitForLazyLoad.
  apply ensures_bind; [apply onlyLooked_trans|apply onlyLooked_refl|].
  intros startTime w1. apply waitForLazyLoad_loop_only_looks.
Qed.

(** The stability wait only looks: however it ends, it has not moved the
    page and has issued no scroll command; all it leaves in the history are
    its samples and, on timeout, the warning. *)
Theorem waitForLazyLoad_only_looks (fuel : nat) (timeout : Z) (w : World) :
  match waitForLazyLoad env fuel timeout w with
  | Returned _ w' | Threw _ w' => onlyLooked w w'
  | OutOfFuel => True
  end.
Proof. exact (waitForLazyLoad_looked fuel timeout w). Qed.

Lemma ensures_mono {A} (m : Async A) (Q Q' X X' : World → Prop) w :
  (∀ w', Q w' → Q' w') → (∀ w', X w' → X' w') →
  ensures m Q X w → ensures m Q' X' w.
Proof. unfold ensures. intros HQ HX. destruct (m w); auto. Qed.

Lemma ensures_bind_val {A B} (m : Async A) (k : A → Async B) Q X w :
  match m w with
  | Returned a w1 => ensures (k a) Q X w1
  | Threw _ w1 => X w1
  | OutOfFuel => True
  end →
  ensures (bind m k) Q X w.
Proof. unfold ensures, bind. by destruct (m w). Qed.

Lemma scrollCommands_observations added h :
  Forall (λ te : Z * Event, isObservation te.2 = true) added →
  scrollCommands (added ++ h) = scrollCommands h.
Proof.
  induction 1 as [|[t ev] added Hev _ IH]; [done|].
  simpl in *. by destruct ev.
Qed.

Lemma onlyLooked_scrolledAtMost w w' : onlyLooked w w' → scrolledAtMost 0 w w'.
Proof.
  intros [_ (added & Hhistory & Hadded)]. unfold scrolledAtMost.
  rewrite Hhistory, scrollCommands_observations by done. lia.
Qed.

Lemma scrolledAtMost_bind {A B} (m : Async A) (k : A → Async B) a b w :
  ensures m (scrolledAtMost a w) (scrolledAtMost a w) w →
  (∀ v w1, ensures (k v) (scrolledAtMost b w1) (scrolledAtMost b w1) w1) →
  ensures (bind m k) (scrolledAtMost (a + b) w) (scrolledAtMost (a + b) w) w.
Proof.
  intros Hm Hk. unfold ensures, bind, scrolledAtMost in *.
  destruct (m w) as [v w1|e w1|]; [|lia|done].
  specialize (Hk v w1). destruct (k v w1); [lia|lia|done].
Qed.

Lemma scrolled_sleep ms w :
  ensures (sleep env ms) (scrolledAtMost 0 w) (scrolledAtMost 0 w) w.
Proof. unfold ensures, scrolledAtMost. simpl. lia. Qed.

Lemma scrolled_scrollBy step w :
  ensures (scrollBy env step) (scrolledAtMost 1 w) (scrolledAtMost 1 w) w.
Proof.
  unfold ensures, scrollBy, evaluate, scrolledAtMost.
  destruct (rejects env (awaits w)); simpl; lia.
Qed.

Lemma scrolled_scrollToTop w :
  ensures (scrollToTop env) (scrolledAtMost 0 w) (scrolledAtMost 0 w) w.
Proof.
  unfold ensures, scrollToTop, evaluate, scrolledAtMost.
  destruct (rejects env (awaits w)); simpl; lia.
Qed.

Lemma scrolled_waitForLazyLoad fuel timeout w :
  ensures (waitForLazyLoad env fuel timeout)
          (scrolledAtMost 0 w) (scrolledAtMost 0 w) w.
Proof.
  pose proof (waitForLazyLoad_looked fuel timeout w) as Hlooks.
  unfold ensures in *.
  destruct (waitForLazyLoad env fuel timeout w);
    [by apply onlyLooked_scrolledAtMost..|done].
Qed.

Variable h : Z.
Hypothesis static_height : ∀ n, fullHeight env n = h.

Lemma intelligentScroll_loop_static fuel :
  ∀ waitFuel startTime maxTimeoutMs step stabilityTimeoutMs last counter w,
    0 ≤ counter →
    ensures (intelligentScroll_loop env fuel waitFuel startTime maxTimeoutMs
               step stabilityTimeoutMs last counter)
            (scrolledAtMost (scrollBudget h last counter) w)
            (scrolledAtMost (scrollBudget h last counter) w) w.
Proof.
  induction fuel as [|fuel IH];
    intros waitFuel startTime maxT step stT last counter w Hcounter;
    cbn [intelligentScroll_loop]; apply ensures_bind_val; cbn [dateNow];
    (destruct (now w - startTime <? maxT);
     [|unfold ensures, scrolledAtMost; simpl; lia]).
  - done.
  - apply ensures_bind_val. unfold getScrollMetrics, evaluate.
    destruct (rejects env (awaits w)) as [e|];
      [unfold scrolledAtMost; simpl; lia|].
    cbn [documentHeight scrollTop viewportHeight]. rewrite static_height.
    set (m := mkScrollMetrics _ _ _). set (w1 := record (SawScroll m) _).
    assert (Hsame : scrollCommands (history w1) = scrollCommands (history w))
      by done.
    destruct (h <=? _); [unfold ensures, scrolledAtMost; simpl; lia|].
    assert (Hadvance : ∀ last' counter',
      0 ≤ counter' →
      (1 + scrollBudget h last' counter' ≤ scrollBudget h last counter)%nat →
      ensures (bind (scrollBy env step) (λ _,
               bind (waitForLazyLoad env waitFuel stT) (λ _,
               bind (sleep env 100) (λ _,
                 intelligentScroll_loop env fuel waitFuel startTime maxT step
                   stT last' counter'))))
              (scrolledAtMost (scrollBudget h last counter) w)
              (scrolledAtMost (scrollBudget h last counter) w) w1).
    { intros last' counter' Hc' Hbudget.
      eapply ensures_mono;
        [| |apply (scrolledAtMost_bind _ _ 1 (scrollBudget h last' counter'));
            [apply scrolled_scrollBy|]].
      1,2: unfold scrolledAtMost; rewrite Hsame; lia.
      intros _ w2.
      apply (scrolledAtMost_bind _ _ 0 (scrollBudget h last' counter'));
        [apply scrolled_waitForLazyLoad|].
      intros _ w3.
      apply (scrolledAtMost_bind _ _ 0 (scrollBudget h last' counter'));
        [apply scrolled_sleep|].
      intros _ w4. by apply IH. }
    destruct (Z.eqb_spec h last) as [Hlast|Hlast].
    + destruct (Z.leb_spec STABILITY_THRESHOLD (counter + 1)) as [_|Hfew].
      { unfold ensures, scrolledAtMost. simpl. lia. }
      unfold STABILITY_THRESHOLD in Hfew. apply Hadvance; [lia|].
      unfold scrollBudget. subst last. rewrite Z.eqb_refl. lia.
    + apply Hadvance; [lia|]. unfold scrollBudget.
      rewrite Z.eqb_refl.
      destruct (Z.eqb_spec last h); [congruence|]. simpl. lia.
Qed.

(** On a page whose document height stays the same, however tall it is, the
    scroller issues at most three scroll commands: the fourth look in a row
    at the same height ends the loop, at the bottom or not. *)
Theorem intelligentScroll_static_page (fuel : nat) (options : ScrollOptions)
    (w : World) :
  match intelligentScroll env fuel options w with
  | Returned _ w' | Threw _ w' =>
      (scrollCommands (history w') ≤ scrollCommands (history w) + 3)%nat
  | OutOfFuel => True
  end.
Proof.
  change (ensures (intelligentScroll env fuel options)
            (scrolledAtMost 3 w) (scrolledAtMost 3 w) w).
  unfold intelligentScroll. apply ensures_bind_val. cbn [dateNow].
  eapply ensures_mono;
    [| |apply (scrolledAtMost_bind _ _ (scrollBudget h 0 0) 0);
        [by apply intelligentScroll_loop_static|]].
  1,2: intros w'; unfold scrolledAtMost, scrollBudget;
       destruct (0 =? h); simpl; lia.
  intros _ w1.
  apply (scrolledAtMost_bind _ _ 0 0); [apply scrolled_scrollToTop|].
  intros _ w2. apply scrolled_sleep.
Qed.

End ScrollingFootprint.

Lemma intelligentScroll_static_page_witness :
  match Scrolling.intelligentScroll Scrolling.busyTallPage 300
          Scrolling.thirtySeconds Scrolling.startWorld with
  | Scrolling.Returned _ w' | Scrolling.Threw _ w' =>
      (Scrolling.scrollCommands (Scrolling.history w') ≤ 0 + 3)%nat
  | Scrolling.OutOfFuel => True
  end.
Proof.
  apply (intelligentScroll_static_page Scrolling.busyTallPage 50000%Z).
  reflexivity.
Defined.

(** A page of fifty viewports that keeps its height: the scroller stops after
    the fourth look, 2400 pixels down, and returns to the top. *)
Example tall_static_page_is_left_early :
  ∃ w', Scrolling.intelligentScroll Scrolling.busyTallPage 300
          Scrolling.thirtySeconds Scrolling.startWorld
        = Scrolling.Returned tt w' ∧
        Scrolling.scrollCommands (Scrolling.history w') = 3 ∧
        Scrolling.scrollTop <$> Scrolling.scrollsSeen (Scrolling.history w')
        = [2400; 1600; 800; 0]%Z.
Proof. eexists. split; [vm_compute; reflexivity|]. done. Qed.

Section ScrollingEdges.

Import Scrolling.
Local Open Scope Z_scope.

Variable env : Env.
Hypothesis latency_nonneg : ∀ n, 0 ≤ latency env n.

Ltac delays :=
  repeat match goal with
         | |- context [latency env ?n] =>
             lazymatch goal with
             | _ : 0 ≤ latency env n |- _ => fail
             | _ => pose proof (latency_nonneg n)
             end
         end.

Lemma waitForLazyLoad_loop_stable_late fuel :
  ∀ startTime timeout previous w,
    startTime ≤ now w →
    (is_Some previous → startTime + 100 ≤ now w) →
    ensures (waitForLazyLoad_loop env fuel startTime timeout previous)
            (λ w', timedOut w' ∨ startTime + 300 ≤ now w')
            (λ _, True) w.
Proof.
  induction fuel as [|fuel IH]; intros startTime timeout previous w Hstart Hprev;
    cbn [waitForLazyLoad_loop]; apply ensures_bind_val; cbn [dateNow];
    (destruct (now w - startTime <? timeout);
     [|left; by eexists]).
  - done.
  - apply ensures_bind_val. unfold getLazyLoadMetrics, evaluate.
    destruct (rejects env (awaits w)); [done|].
    set (current := lazyLoad env (awaits w)).
    assert (Hnext : ∀ w2, now w ≤ now w2 →
      ensures (bind (sleep env 100)
                 (λ _, waitForLazyLoad_loop env fuel startTime timeout
                         (Some current)))
              (λ w', timedOut w' ∨ startTime + 300 ≤ now w') (λ _, True) w2).
    { intros w2 Hw2. apply ensures_bind_val. cbn [sleep].
      pose proof (latency_nonneg (awaits w2)).
      apply IH; simpl; [lia|intros _; lia]. }
    pose proof (latency_nonneg (awaits w)).
    destruct previous as [previous|]; [|apply Hnext; simpl; lia].
    destruct (stableSince previous current); [|apply Hnext; simpl; lia].
    apply ensures_bind_val. cbn [sleep]. apply ensures_bind_val.
    unfold getLazyLoadMetrics, evaluate. cbn [awaits record].
    destruct (rejects env (S (S (awaits w)))); [done|].
    specialize (Hprev (ltac:(by eexists))).
    destruct (stableSince current _).
    + right. simpl. delays. lia.
    + apply Hnext. simpl. delays. lia.
Qed.

(** Quiescence is never reported early: a wait that returns without its
    timeout warning has lasted at least the 100 ms between the baseline and
    the tentative check plus the 200 ms grace delay. *)
Theorem waitForLazyLoad_stable_after_300ms (fuel : nat) (timeout : Z)
    (w : World) :
  match waitForLazyLoad env fuel timeout w with
  | Returned _ w' => timedOut w' ∨ 300 ≤ now w' - now w
  | _ => True
  end.
Proof.
  pose proof (waitForLazyLoad_loop_stable_late fuel (now w) timeout None w)
    as Hloop.
  unfold ensures in Hloop. unfold waitForLazyLoad, bind, dateNow.
  destruct (waitForLazyLoad_loop env fuel (now w) timeout None w);
    [|done..].
  destruct Hloop as [H|H]; [lia|by intros []|by left|right; lia].
Qed.

(** A wait with a timeout of 100 ms or less never reports quiescence: its
    first round only takes the baseline and pauses for 100 ms, after which
    the timeout has passed. It takes one sample at most and ends with the
    warning. *)
Theorem waitForLazyLoad_short_timeout (fuel : nat) (timeout : Z) (w : World) :
  timeout ≤ 100 → (1 ≤ fuel)%nat →
  match waitForLazyLoad env fuel timeout w with
  | Returned _ w' =>
      timedOut w' ∧
      (lazySamples (history w') ≤ lazySamples (history w) + 1)%nat
  | Threw e _ => rejects env (awaits w) = Some e
  | OutOfFuel => False
  end.
Proof.
  intros Htimeout Hfuel. destruct fuel as [|fuel]; [lia|].
  unfold waitForLazyLoad, bind at 1, dateNow.
  cbn [waitForLazyLoad_loop]. unfold bind at 1, dateNow.
  destruct (Z.ltb_spec (now w - now w) timeout) as [Hlt|Hge].
  2:{ simpl. split; [by eexists | lia]. }
  unfold bind at 1, getLazyLoadMetrics, evaluate.
  destruct (rejects env (awaits w)) as [e|] eqn:Hrejects; [done|].
  unfold bind at 1, sleep. cbn [now awaits scrollY history record].
  pose proof (latency_nonneg (awaits w)).
  pose proof (latency_nonneg (S (awaits w))).
  assert (Hover : (now w + latency env (awaits w) + 100
                   + latency env (S (awaits w)) - now w <? timeout) = false)
    by (apply Z.ltb_ge; lia).
  destruct fuel as [|fuel]; cbn [waitForLazyLoad_loop];
    unfold bind at 1, dateNow; cbn [now]; rewrite Hover; simpl;
    (split; [by eexists | lia]).
Qed.

(** With an overall timeout of zero or less the scroller does not look at
    the page at all: it scrolls to the top, waits for the settle delay and
    returns. *)
Theorem intelligentScroll_without_budget (fuel : nat) (options : ScrollOptions)
    (w : World) :
  default 30000 (maxTimeout options) ≤ 0 →
  match intelligentScroll env fuel options w with
  | Returned _ w' =>
      scrollY w' = 0 ∧
      history w' = (now w + latency env (awaits w), ScrolledTo 0) :: history w
  | Threw e w' => rejects env (awaits w) = Some e ∧ history w' = history w
  | OutOfFuel => False
  end.
Proof.
  intros Hbudget. unfold intelligentScroll, bind at 1, dateNow.
  assert (Hguard : (now w - now w <? default 30000 (maxTimeout options))
                   = false) by (apply Z.ltb_ge; lia).
  unfold bind at 1.
  destruct fuel; cbn [intelligentScroll_loop]; unfold bind at 1, dateNow;
    rewrite Hguard; cbn [ret];
    unfold bind, scrollToTop, evaluate;
    by destruct (rejects env (awaits w)).
Qed.

(** When the first look finds the whole document in view, the scroller
    issues no scroll command and takes no sample of the counts: the look is
    followed by the scroll to the top and the settle delay. *)
Theorem intelligentScroll_page_in_view (fuel : nat) (options : ScrollOptions)
    (w : World) :
  0 < default 30000 (maxTimeout options) → (1 ≤ fuel)%nat →
  fullHeight env (awaits w) ≤ scrollY w + innerHeight env (awaits w) →
  match intelligentScroll env fuel options w with
  | Returned _ w' =>
      scrollY w' = 0 ∧
      ∃ t1 t2 m,
        history w' = (t2, ScrolledTo 0) :: (t1, SawScroll m) :: history w ∧
        now w' = now w + latency env (awaits w)
                 + latency env (S (awaits w)) + 500
                 + latency env (S (S (awaits w)))
  | Threw e w' => ∃ n, rejects env n = Some e
  | OutOfFuel => False
  end.
Proof.
  intros Hbudget Hfuel Hview. destruct fuel as [|fuel]; [lia|].
  unfold intelligentScroll, bind at 1, dateNow.
  assert (Hguard : (now w - now w <? default 30000 (maxTimeout options))
                   = true) by (apply Z.ltb_lt; lia).
  unfold bind at 1. cbn [intelligentScroll_loop]. unfold bind at 1, dateNow.
  rewrite Hguard. unfold bind at 1, getScrollMetrics, evaluate.
  destruct (rejects env (awaits w)) as [e|] eqn:H1; [by eexists|].
  cbn [documentHeight scrollTop viewportHeight scrollY].
  apply Z.leb_le in Hview. rewrite Hview. cbn [ret].
  unfold bind, scrollToTop, evaluate. cbn [awaits record].
  destruct (rejects env (S (awaits w))) as [e|] eqn:H2; [by eexists|].
  simpl. split; [done|]. eexists _, _, _. split; [done|lia].
Qed.

End ScrollingEdges.

Lemma waitForLazyLoad_short_timeout_witness :
  match Scrolling.waitForLazyLoad Scrolling.quietPage 50 100
          Scrolling.startWorld with
  | Scrolling.Returned _ w' =>
      Scrolling.timedOut w' ∧
      (Scrolling.lazySamples (Scrolling.history w') ≤ 0 + 1)%nat
  | Scrolling.Threw e _ => Scrolling.rejects Scrolling.quietPage 0 = Some e
  | Scrolling.OutOfFuel => False
  end.
Proof.
  apply (waitForLazyLoad_short_timeout Scrolling.quietPage).
  - intros n. simpl. lia.
  - lia.
  - lia.
Defined.

Lemma waitForLazyLoad_stable_after_300ms_witness :
  match Scrolling.waitForLazyLoad Scrolling.slowPage 50 2000
          Scrolling.startWorld with
  | Scrolling.Returned _ w' =>
      Scrolling.timedOut w' ∨ (300 ≤ Scrolling.now w' - 0)%Z
  | _ => True
  end.
Proof.
  apply (waitForLazyLoad_stable_after_300ms Scrolling.slowPage).
  intros n. simpl. lia.
Defined.

Lemma intelligentScroll_without_budget_witness :
  match Scrolling.intelligentScroll Scrolling.quietPage 50 Scrolling.noBudget
          Scrolling.startWorld with
  | Scrolling.Returned _ w' =>
      Scrolling.scrollY w' = 0%Z ∧
      Scrolling.history w' = [(0%Z, Scrolling.ScrolledTo 0)]
  | Scrolling.Threw e w' =>
      Scrolling.rejects Scrolling.quietPage 0 = Some e ∧
      Scrolling.history w' = []
  | Scrolling.OutOfFuel => False
  end.
Proof.
  apply (intelligentScroll_without_budget Scrolling.quietPage 50
           Scrolling.noBudget Scrolling.startWorld).
  simpl. lia.
Defined.

Lemma intelligentScroll_page_in_view_witness :
  match Scrolling.intelligentScroll Scrolling.shortPage 50
          Scrolling.fourSeconds Scrolling.startWorld with
  | Scrolling.Returned _ w' =>
      Scrolling.scrollY w' = 0%Z ∧
      ∃ t1 t2 m,
        Scrolling.history w'
        = [(t2, Scrolling.ScrolledTo 0); (t1, Scrolling.SawScroll m)] ∧
        Scrolling.now w' = (0 + 0 + 0 + 500 + 0)%Z
  | Scrolling.Threw e w' => ∃ n, Scrolling.rejects Scrolling.shortPage n = Some e
  | Scrolling.OutOfFuel => False
  end.
Proof.
  apply (intelligentScroll_page_in_view Scrolling.shortPage 50
           Scrolling.fourSeconds Scrolling.startWorld).
  - simpl. lia.
  - lia.
  - simpl. lia.
Defined.

(** ** Further properties of the capture orchestrator and the HTTP handlers *)

Section CaptureFacts.

Import Service.

Variable env : Env.

Ltac run_capture :=
  unfold takeScreenshot, initialize, tryCatch, setupPage, navigateAndPrepare,
    blockChatWidgets, captureScreenshot, pageScreenshot, closePage, writeFile,
    newPage, bind, when, step, modify, ret, throw.

Ltac settle st :=
  destruct (fails env st) eqn:?; simpl;
  rewrite ?close_last_page, ?app_nil_r; [done|].

Ltac settle_all options s :=
  settle NewPage; settle SetViewport;
  destruct (blockerLoaded s); simpl; [settle EnableBlocking|];
  (settle SetRequestInterception; settle SuppressWidgets; settle Goto;
   settle HandleStickyElements;
   destruct (fullPage options) as [[]|]; simpl;
   [settle GetScrollMetrics; settle IntelligentScroll;
    settle WaitForLazyLoad| |];
   (settle Screenshot; settle RestoreStickyElements; settle ClosePage;
    destruct (outputPath options) as [path|]; simpl; [|done];
    destruct (String.eqb path ""); simpl; [done|];
    settle WriteFile; done)).


(** With the browser launched, the outcome of a capture is the rejection of
    the first step of its pipeline that fails, or else the image. *)
Lemma takeScreenshot_result (options : ScreenshotOptions) (s : Server) :
  browserLaunched s = true →
  (takeScreenshot env options s).1 =
  match firstFailure env (pipeline options s) with
  | None => Fulfilled (render env (screenshotParams options))
  | Some (_, reason) => Rejected reason
  end.
Proof.
  intros Hbrowser. unfold takeScreenshot, pipeline, bind, when at 1.
  rewrite Hbrowser. simpl. rewrite Hbrowser. simpl.
  unfold tryCatch, setupPage, navigateAndPrepare, blockChatWidgets,
    captureScreenshot, pageScreenshot, closePage, writeFile, newPage,
    bind, when, step, modify, ret, throw.
  settle_all options s.
Qed.

(** With the browser launched, a capture leaves the service as launched as
    it found it. *)
Lemma takeScreenshot_keeps_service (options : ScreenshotOptions) (s : Server) :
  browserLaunched s = true →
  sameService s (takeScreenshot env options s).2.
Proof.
  intros Hbrowser. unfold sameService, takeScreenshot, bind, when at 1.
  rewrite Hbrowser. simpl. rewrite Hbrowser. simpl.
  unfold tryCatch, setupPage, navigateAndPrepare, blockChatWidgets,
    captureScreenshot, pageScreenshot, closePage, writeFile, newPage,
    bind, when, step, modify, ret, throw.
  settle NewPage. settle SetViewport.
  destruct (blockerLoaded s) eqn:Hblocker; simpl; [settle EnableBlocking|];
  (settle SetRequestInterception; settle SuppressWidgets; settle Goto;
   settle HandleStickyElements;
   destruct (fullPage options) as [[]|]; simpl;
   [settle GetScrollMetrics; settle IntelligentScroll;
    settle WaitForLazyLoad| |];
   (settle Screenshot; settle RestoreStickyElements; settle ClosePage;
    destruct (outputPath options) as [path|]; simpl; [|done];
    destruct (String.eqb path ""); simpl; [done|];
    settle WriteFile; done)).
Qed.



(** When the browser is not launched yet, a capture launches it first. If
    the filter list and the browser both come up, the capture goes on as on
    a launched service with the blocker loaded; if either fails, the caller
    gets the fixed initialization error instead of the cause, no page is
    created and the browser stays unlaunched. *)
Theorem takeScreenshot_initialization (options : ScreenshotOptions)
    (s : Server) :
  browserLaunched s = false →
  (fails env LoadBlocker = None → fails env LaunchBrowser = None →
   takeScreenshot env options s
   = takeScreenshot env options
       (mkServer true true (pages s) (shots s) (files s))) ∧
  (is_Some (fails env LoadBlocker) ∨ is_Some (fails env LaunchBrowser) →
   let out := takeScreenshot env options s in
   out.1 = Rejected initializationFailed ∧
   pages out.2 = pages s ∧ browserLaunched out.2 = false).
Proof.
  intros Hbrowser. split.
  - intros Hlist Hlaunch.
    unfold takeScreenshot, bind at 1 3, when at 1 3, initialize, tryCatch,
      bind, step, modify, ret.
    rewrite Hbrowser, Hlist, Hlaunch. reflexivity.
  - intros Hfail out. subst out.
    unfold takeScreenshot, bind at 1, when at 1, initialize, tryCatch,
      bind, step, modify, ret, throw.
    rewrite Hbrowser. simpl.
    destruct (fails env LoadBlocker) as [e1|]; simpl; [done|].
    destruct (fails env LaunchBrowser) as [e2|]; simpl; [done|].
    by destruct Hfail as [[? ?]|[? ?]].
Qed.

(** A request without a format is encoded as jpeg, but its quality is
    dropped all the same: the quality reaches [page.screenshot] only for a
    request that names the jpeg format itself. *)
Theorem quality_needs_explicit_jpeg (options : ScreenshotOptions)
    (q : option Z) (s : Server) :
  (format options = Some Jpeg →
   paramQuality (screenshotParams options)
   = Some (default 80%Z (quality options))) ∧
  (format options = None →
   paramType (screenshotParams options) = Jpeg ∧
   paramQuality (screenshotParams options) = None ∧
   takeScreenshot env (withQuality q options) s
   = takeScreenshot env options s).
Proof.
  split.
  - intros Hjpeg. unfold screenshotParams. by rewrite Hjpeg.
  - intros Habsent. unfold screenshotParams. rewrite Habsent.
    split; [done|]. split; [done|].
    unfold takeScreenshot, captureScreenshot, screenshotParams. simpl.
    by rewrite Habsent.
Qed.

(** The answer of POST /screenshot on a launched service: the image, with
    the content type of its format and its length, when no step of the
    capture fails, and otherwise status 500 with the message of the first
    step that failed. The pipeline of the handler has no file write. *)
Theorem screenshotHandler_response (body : ScreenshotOptions) (s : Server) :
  browserLaunched s = true →
  (WriteFile ∉ pipeline (withoutOutputPath body) s) ∧
  (screenshotHandler env body s).1 =
  match firstFailure env (pipeline (withoutOutputPath body) s) with
  | None =>
      ImageResponse
        (match format body with Some Png => "image/png" | _ => "image/jpeg" end)
        (length (render env (screenshotParams body)))
        (render env (screenshotParams body))
  | Some (_, reason) => JsonError 500 "Failed to capture screenshot" reason
  end.
Proof.
  intros Hbrowser. split.
  - unfold pipeline. simpl.
    destruct (blockerLoaded s), (fullPage body) as [[]|]; simpl;
      intros Hin; repeat (apply elem_of_cons in Hin as [Hin|Hin]; [done|]);
      by apply elem_of_nil in Hin.
  - pose proof (takeScreenshot_result (withoutOutputPath body) s Hbrowser)
      as Hresult.
    unfold screenshotHandler.
    destruct (takeScreenshot env (withoutOutputPath body) s) as [r s'].
    cbn [fst] in Hresult. subst r.
    by destruct (firstFailure env (pipeline (withoutOutputPath body) s))
      as [[st reason]|].
Qed.

End CaptureFacts.

(** When the full-page flag is absent or false the scrolling stage is not
    run at all: a capture gives the same outcome whether or not the scroller
    would fail. An absent flag still asks [page.screenshot] for the full
    page. *)
Theorem capture_skips_scrolling (env env' : Service.Env)
    (options : Service.ScreenshotOptions) (s : Service.Server) :
  Service.fullPage options ≠ Some true →
  (∀ st, Service.isScrollStep st = false →
         Service.fails env' st = Service.fails env st) →
  Service.render env' = Service.render env →
  Service.takeScreenshot env' options s = Service.takeScreenshot env options s ∧
  (Service.fullPage options = None →
   Service.paramFullPage (Service.screenshotParams options) = true).
Proof.
  intros Hflag Hagree Hrender. split.
  - unfold Service.takeScreenshot, Service.initialize, Service.tryCatch,
      Service.setupPage, Service.navigateAndPrepare, Service.blockChatWidgets,
      Service.captureScreenshot, Service.pageScreenshot, Service.closePage,
      Service.writeFile, Service.newPage, Service.bind, Service.when,
      Service.step, Service.modify, Service.ret, Service.throw.
    rewrite Hrender.
    rewrite (Hagree Service.LoadBlocker eq_refl),
      (Hagree Service.LaunchBrowser eq_refl),
      (Hagree Service.NewPage eq_refl), (Hagree Service.SetViewport eq_refl),
      (Hagree Service.EnableBlocking eq_refl),
      (Hagree Service.SetRequestInterception eq_refl),
      (Hagree Service.SuppressWidgets eq_refl), (Hagree Service.Goto eq_refl),
      (Hagree Service.HandleStickyElements eq_refl),
      (Hagree Service.Screenshot eq_refl),
      (Hagree Service.RestoreStickyElements eq_refl),
      (Hagree Service.ClosePage eq_refl), (Hagree Service.WriteFile eq_refl).
    by destruct (Service.fullPage options) as [[]|].
  - intros Habsent. unfold Service.screenshotParams. by rewrite Habsent.
Qed.

Lemma capture_skips_scrolling_witness :
  Service.takeScreenshot Service.stuckScroller Service.exampleOptions
    Service.readyServer
  = Service.takeScreenshot Service.reachable Service.exampleOptions
      Service.readyServer.
Proof.
  apply (capture_skips_scrolling Service.reachable Service.stuckScroller
           Service.exampleOptions Service.readyServer).
  - discriminate.
  - intros st Hst. simpl. by rewrite Hst.
  - reflexivity.
Defined.

Lemma takeScreenshot_initialization_witness :
  (Service.takeScreenshot Service.noBrowser Service.exampleOptions
     Service.coldServer).1
  = Service.Rejected Service.initializationFailed.
Proof.
  apply (takeScreenshot_initialization Service.noBrowser
           Service.exampleOptions Service.coldServer eq_refl).
  right. by eexists.
Defined.

Lemma quality_needs_explicit_jpeg_witness :
  Service.paramQuality
    (Service.screenshotParams (Service.jpegOptions (Some 55%Z)))
  = Some 55%Z.
Proof.
  apply (quality_needs_explicit_jpeg Service.reachable
           (Service.jpegOptions (Some 55%Z)) None Service.readyServer).
  reflexivity.
Defined.

Lemma screenshotHandler_response_witness :
  (Service.screenshotHandler Service.unreachable Service.exampleOptions
     Service.readyServer).1
  = Service.JsonError 500 "Failed to capture screenshot"
      Service.navigationError.
Proof.
  apply (screenshotHandler_response Service.unreachable
           Service.exampleOptions Service.readyServer eq_refl).
Defined.

(** Every task of the list is run in a state that a property kept by the
    tasks has reached. *)
Lemma allSettled_lookup_stable {A} (I : Service.Server → Prop)
    (tasks : list (Service.Task A)) (s : Service.Server) (i : nat)
    (t : Service.Task A) :
  I s →
  (∀ t', t' ∈ tasks → ∀ s1, I s1 → I (t' s1).2) →
  tasks !! i = Some t →
  ∃ si, I si ∧ (Service.allSettled tasks s).1 !! i = Some (t si).1.
Proof.
  revert s i. induction tasks as [|t0 tasks IH]; intros s i Hs Hkeep Hi;
    [done|].
  simpl. pose proof (Hkeep t0 (list_elem_of_here _ _) s Hs) as Hs1.
  destruct (t0 s) as [r s1] eqn:Ht0.
  destruct (Service.allSettled tasks s1) as [rs s2] eqn:Hrest.
  destruct i as [|i]; simpl in *.
  - injection Hi as <-. exists s. by rewrite Ht0.
  - destruct (IH s1 i Hs1) as (si & Hsi & Hlook); [|done|].
    { intros t' Ht'. apply Hkeep. by right. }
    exists si. by rewrite Hrest in Hlook.
Qed.

(** On a launched service the entry of a URL in the batch response is the
    one its capture gives when run alone from the state the batch started
    in: neither the success nor the failure of the other captures of the
    batch changes it. *)
Theorem batch_entry_is_independent (envs : nat → Service.Env)
    (urls : list Service.ScreenshotOptions) (s : Service.Server)
    (i : nat) (options : Service.ScreenshotOptions) :
  Service.browserLaunched s = true →
  urls !! i = Some options →
  ∃ entries,
    (Service.batchHandler envs urls s).1 = Service.JsonResults entries ∧
    entries !! i =
    Some (Service.batchEntry urls i
            (Service.takeScreenshot (envs i)
               (Service.withoutOutputPath options) s).1).
Proof.
  intros Hbrowser Hi. unfold Service.batchHandler.
  set (tasks := imap (λ i options,
                  Service.takeScreenshot (envs i)
                    (Service.withoutOutputPath options)) urls).
  destruct (allSettled_lookup_stable (Service.sameService s) tasks s i
              (Service.takeScreenshot (envs i)
                 (Service.withoutOutputPath options)))
    as (si & [Hb Hl] & Hlook).
  - done.
  - intros t' Ht' s1 [Hb1 Hl1]. subst tasks.
    apply list_elem_of_lookup in Ht' as [j Hj].
    rewrite list_lookup_imap in Hj.
    destruct (urls !! j) as [oj|]; [|done]. injection Hj as <-.
    destruct (takeScreenshot_keeps_service (envs j)
                (Service.withoutOutputPath oj) s1) as [Hb2 Hl2];
      [congruence|].
    split; congruence.
  - subst tasks. by rewrite list_lookup_imap, Hi.
  - destruct (Service.allSettled tasks s) as [results s']. simpl in *.
    eexists. split; [done|].
    rewrite list_lookup_imap, Hlook. simpl. f_equal. f_equal.
    rewrite !takeScreenshot_result by congruence.
    unfold Service.pipeline. by rewrite <- Hl.
Qed.

Lemma batch_entry_is_independent_witness :
  ∃ entries,
    (Service.batchHandler
       (λ i, match i with 0 => Service.unreachable | _ => Service.reachable end)
       [Service.unreachableOptions; Service.exampleOptions]
       Service.readyServer).1
    = Service.JsonResults entries ∧
    entries !! 1 = Some (Service.mkEntry "https://example.com" true
                                         (Some "/9j/4A==") None).
Proof.
  apply (batch_entry_is_independent
           (λ i, match i with
                 | 0 => Service.unreachable
                 | _ => Service.reachable
                 end)
           [Service.unreachableOptions; Service.exampleOptions]
           Service.readyServer 1 Service.exampleOptions);
    reflexivity.
Defined.

(** ** Properties of the command-line script *)

Section CliFacts.

Import Service Cli.

Variable e : Cli.Env.




End CliFacts.


(** The script on two reachable URLs: two files, named after the clock. *)
Example run_writes_both_files :
  (Service.files (Cli.run Cli.allReachable []).2).*1
  = [ "screenshots/screenshot-1700000000000.jpg";
      "screenshots/screenshot-1700000000001.jpg" ].
Proof. vm_compute. reflexivity. Qed.

(** The script where no browser can be launched: the initialization the
    constructor started is rejected and the process ends with status 1,
    having written nothing. *)
Example run_without_browser :
  Cli.run Cli.withoutBrowser [] = (1%Z, Cli.newService []).
Proof. reflexivity. Qed.

(** ** Properties of smoothScroll *)

Section SmoothScrollFacts.

Import Scrolling.
Local Open Scope Z_scope.

Variable env : Env.
Variable bodyHeight : nat → Z.

Lemma smoothScroll_ticks_growing fuel :
  ∀ tick totalHeight w,
    totalHeight = 100 * Z.of_nat tick →
    (∀ t, 100 * (Z.of_nat t + 1) < bodyHeight t) →
    smoothScroll_ticks env bodyHeight fuel tick totalHeight w = OutOfFuel.
Proof.
  induction fuel as [|fuel IH]; intros tick totalHeight w Htotal Hgrows;
    [done|].
  cbn [smoothScroll_ticks]. unfold bind at 1, sleep.
  unfold bind at 1, inPage.
  destruct (Z.leb_spec (bodyHeight tick) (totalHeight + 100)) as [Hdone|_].
  { specialize (Hgrows tick). lia. }
  apply IH; [lia|done].
Qed.

(** [smoothScroll] has no guard on time: on a page whose body is at every
    tick taller than the distance scrolled so far, it never resolves,
    whatever number of ticks it is given. *)
Theorem smoothScroll_never_ends_on_growing_page (fuel : nat) (w : World) :
  (∀ t, 100 * (Z.of_nat t + 1) < bodyHeight t) →
  match smoothScroll env bodyHeight fuel w with
  | Returned _ _ => False
  | Threw e _ => rejects env (awaits w) = Some e
  | OutOfFuel => True
  end.
Proof.
  intros Hgrows. unfold smoothScroll, bind, evaluate.
  destruct (rejects env (awaits w)); [done|].
  by rewrite smoothScroll_ticks_growing.
Qed.

Variable h : Z.
Hypothesis static_body : ∀ t, bodyHeight t = h.
Hypothesis latency_nonneg : ∀ n, 0 ≤ latency env n.

Lemma smoothScroll_ticks_static (remaining : nat) :
  ∀ fuel tick totalHeight w,
    (1 ≤ remaining ≤ fuel)%nat →
    h ≤ totalHeight + 100 * Z.of_nat remaining →
    ((1 < remaining)%nat →
     totalHeight + 100 * (Z.of_nat remaining - 1) < h) →
    match smoothScroll_ticks env bodyHeight fuel tick totalHeight w with
    | Returned _ w' =>
        scrollY w' = 0 ∧
        scrollCommands (history w')
        = (scrollCommands (history w) + remaining)%nat ∧
        100 * Z.of_nat remaining + 500 ≤ now w' - now w
    | _ => False
    end.
Proof.
  induction remaining as [|remaining IH];
    intros fuel tick totalHeight w [H1 Hfuel] Hreach Hnot; [lia|].
  destruct fuel as [|fuel]; [lia|].
  cbn [smoothScroll_ticks]. unfold bind at 1, sleep.
  unfold bind at 1, inPage. rewrite static_body.
  pose proof (latency_nonneg (awaits w)).
  destruct (Z.leb_spec h (totalHeight + 100)) as [Hdone|Hmore].
  - assert (remaining = 0%nat) as -> by lia.
    unfold bind, inPage, sleep. simpl.
    pose proof (latency_nonneg (S (awaits w))).
    split; [done|]. split; lia.
  - assert (1 ≤ remaining)%nat by lia.
    match goal with
    | |- match smoothScroll_ticks _ _ _ _ _ ?w1 with _ => _ end =>
        specialize (IH fuel (S tick) (totalHeight + 100) w1)
    end.
    destruct (smoothScroll_ticks env bodyHeight fuel (S tick)
                (totalHeight + 100) _) as [[] w'|e w'|];
      [|apply IH; lia..].
    destruct IH as (Hy & Hcount & Htime); [lia..|].
    simpl in Hcount, Htime. split; [done|]. split; lia.
Qed.

(** On a page whose body height stays [h], [smoothScroll] scrolls down in
    steps of 100 pixels until it has covered the height, once at least, then
    returns to the top: it issues one scroll command per 100 pixels of
    height, rounded up, and takes at least 100 ms for each plus the 500 ms at
    the end. *)
Theorem smoothScroll_static_page (fuel : nat) (w : World) :
  (ticksFor h ≤ fuel)%nat →
  match smoothScroll env bodyHeight fuel w with
  | Returned _ w' =>
      scrollY w' = 0 ∧
      scrollCommands (history w')
      = (scrollCommands (history w) + ticksFor h)%nat ∧
      100 * Z.of_nat (ticksFor h) + 500 ≤ now w' - now w
  | Threw e _ => rejects env (awaits w) = Some e
  | OutOfFuel => False
  end.
Proof.
  intros Hfuel. unfold smoothScroll, bind, evaluate.
  destruct (rejects env (awaits w)); [done|].
  pose proof (latency_nonneg (awaits w)).
  pose proof (Z.div_mod (h + 99) 100 ltac:(lia)) as Hdiv.
  pose proof (Z.mod_pos_bound (h + 99) 100 ltac:(lia)) as Hmod.
  match goal with
  | |- match smoothScroll_ticks _ _ _ _ _ ?w1 with _ => _ end =>
      pose proof (smoothScroll_ticks_static (ticksFor h) fuel 0%nat 0 w1)
        as Hticks
  end.
  unfold ticksFor in *.
  destruct (smoothScroll_ticks env bodyHeight fuel 0 0 _) as [[] w'|e w'|];
    [|exfalso; apply Hticks; lia..].
  destruct Hticks as (Hy & Hcount & Htime); [lia..|].
  simpl in Hcount, Htime. split; [done|]. split; lia.
Qed.

End SmoothScrollFacts.

Lemma smoothScroll_never_ends_on_growing_page_witness :
  match Scrolling.smoothScroll Scrolling.growingPage
          (λ t, 5000 + 1000 * Z.of_nat t)%Z 1000 Scrolling.startWorld with
  | Scrolling.Returned _ _ => False
  | Scrolling.Threw e _ => Scrolling.rejects Scrolling.growingPage 0 = Some e
  | Scrolling.OutOfFuel => True
  end.
Proof.
  apply (smoothScroll_never_ends_on_growing_page Scrolling.growingPage
           (λ t, 5000 + 1000 * Z.of_nat t)%Z 1000 Scrolling.startWorld).
  intros t. lia.
Defined.

Lemma smoothScroll_static_page_witness :
  match Scrolling.smoothScroll Scrolling.quietPage (λ _, 5000%Z) 60
          Scrolling.startWorld with
  | Scrolling.Returned _ w' =>
      Scrolling.scrollY w' = 0%Z ∧
      Scrolling.scrollCommands (Scrolling.history w') = (0 + 50)%nat ∧
      (100 * 50 + 500 ≤ Scrolling.now w' - 0)%Z
  | Scrolling.Threw e _ => Scrolling.rejects Scrolling.quietPage 0 = Some e
  | Scrolling.OutOfFuel => False
  end.
Proof.
  apply (smoothScroll_static_page Scrolling.quietPage (λ _, 5000%Z) 5000%Z).
  - reflexivity.
  - intros n. simpl. lia.
  - vm_compute. lia.
Defined.
